(** * home-scrapper: the listing ingestion and deduplication pipeline

    A shallow embedding of [src/index.ts] (the version that carries
    [maxPrice], [CHUNK_SIZE] and [UF_VALUE]) together with the properties
    of its price normalisation, budget filter, batcher, seen-set update and
    per-group orchestration.

    Modelling conventions.
    - A JavaScript [number] that the program only ever uses as an integer
      is a [number]: [NaN] or [Int z] with [z : Z], and arithmetic on it is
      exact.  JavaScript computes in IEEE doubles, so the two agree as long
      as every value involved is at most 2^53 in magnitude ([exact] below);
      statements about amounts read from a page carry that bound.
    - A JavaScript string is a [string] holding its UTF-8 bytes.  The white
      space of [parseInt] and of the regular expression class [\s] is the
      full ECMAScript set, ASCII and beyond, in that encoding.
    - [x ?? d] on a nullable string is [default d x] on an [option string].
    - The object [alreadySeenHouses] is a [gmap string bool]; the persisted
      store is an association list in the order [for ... in] enumerates its
      keys, which [JSON.stringify]/[JSON.parse] preserve. *)

From Stdlib Require Import ZArith Lia Bool List Ascii String DecimalString DecimalPos.
From stdpp Require Import base option list gmap strings.

Local Open Scope string_scope.
Local Open Scope list_scope.
Local Open Scope Z_scope.

(** ** Numbers and strings as JavaScript has them *)

Inductive number : Type :=
| NaN
| Int (n : Z).

Definition jsAdd (a b : number) : number :=
  match a, b with
  | Int x, Int y => Int (x + y)
  | _, _ => NaN
  end.

Definition jsMul (a b : number) : number :=
  match a, b with
  | Int x, Int y => Int (x * y)
  | _, _ => NaN
  end.

(** [a < b]: false as soon as one side is [NaN]. *)
Definition jsLt (a b : number) : bool :=
  match a, b with
  | Int x, Int y => x <? y
  | _, _ => false
  end.

Module JsString.

(** The one-byte members of [StrWhiteSpaceChar] (white space and line
    terminators): TAB, LF, VT, FF, CR, SP. *)
Definition isWhiteSpace (c : ascii) : bool :=
  let n := nat_of_ascii c in
  ((9 <=? n)%nat && (n <=? 13)%nat) || (n =? 32)%nat.

(** Its two-byte member: U+00A0, encoded C2 A0. *)
Definition isWhiteSpace2 (c1 c2 : ascii) : bool :=
  (nat_of_ascii c1 =? 194)%nat && (nat_of_ascii c2 =? 160)%nat.

(** Its three-byte members: U+1680 (E1 9A 80), U+2000 to U+200A
    (E2 80 80 to E2 80 8A), U+2028 and U+2029 (E2 80 A8, E2 80 A9), U+202F
    (E2 80 AF), U+205F (E2 81 9F), U+3000 (E3 80 80), U+FEFF (EF BB BF). *)
Definition isWhiteSpace3 (c1 c2 c3 : ascii) : bool :=
  let n1 := nat_of_ascii c1 in
  let n2 := nat_of_ascii c2 in
  let n3 := nat_of_ascii c3 in
  ((n1 =? 225) && (n2 =? 154) && (n3 =? 128))%nat
  || ((n1 =? 226) && (n2 =? 128)
      && (((128 <=? n3) && (n3 <=? 138)) || (n3 =? 168) || (n3 =? 169)
          || (n3 =? 175)))%nat
  || ((n1 =? 226) && (n2 =? 129) && (n3 =? 159))%nat
  || ((n1 =? 227) && (n2 =? 128) && (n3 =? 128))%nat
  || ((n1 =? 239) && (n2 =? 187) && (n3 =? 191))%nat.

(** The first bytes of the members that take more than one byte. *)
Definition isWhiteSpaceLead (c : ascii) : bool :=
  let n := nat_of_ascii c in
  ((n =? 194) || (n =? 225) || (n =? 226) || (n =? 227) || (n =? 239))%nat.

(** Drop the white space a text begins with, one character (of one, two
    or three bytes) at a time. *)
Fixpoint trimStart (s : string) : string :=
  match s with
  | String c1 r1 =>
      if isWhiteSpace c1 then trimStart r1
      else if isWhiteSpaceLead c1 then
        match r1 with
        | String c2 r2 =>
            if isWhiteSpace2 c1 c2 then trimStart r2
            else
              match r2 with
              | String c3 r3 =>
                  if isWhiteSpace3 c1 c2 c3 then trimStart r3 else s
              | EmptyString => s
              end
        | EmptyString => s
        end
      else s
  | EmptyString => EmptyString
  end.

(** Value of a code unit as a digit of some radix up to 36. *)
Definition digitValue (c : ascii) : option Z :=
  let n := Z.of_nat (nat_of_ascii c) in
  if (48 <=? n) && (n <=? 57) then Some (n - 48)
  else if (97 <=? n) && (n <=? 122) then Some (n - 87)
  else if (65 <=? n) && (n <=? 90) then Some (n - 55)
  else None.

(** Longest prefix of radix-[R] digits, read left to right; [acc] is
    [None] until a first digit has been consumed. *)
Fixpoint parseDigits (R : Z) (s : string) (acc : option Z) : option Z :=
  match s with
  | String c rest =>
      match digitValue c with
      | Some d =>
          if d <? R then parseDigits R rest (Some (default 0 acc * R + d))
          else acc
      | None => acc
      end
  | EmptyString => acc
  end.

Definition stripSign (s : string) : Z * string :=
  match s with
  | String "-" rest => (-1, rest)
  | String "+" rest => (1, rest)
  | _ => (1, s)
  end.

Definition stripHexPrefix (s : string) : Z * string :=
  match s with
  | String "0" (String "x" rest) => (16, rest)
  | String "0" (String "X" rest) => (16, rest)
  | _ => (10, s)
  end.

(** [parseInt(s)] with the radix left undefined.  The integer read is kept
    as it is; the code rounds it to the nearest double, which is the same
    integer as long as it is [exact] (see below). *)
Definition parseInt (s : string) : number :=
  let '(sign, s1) := stripSign (trimStart s) in
  let '(R, s2) := stripHexPrefix s1 in
  match parseDigits R s2 None with
  | Some v => Int (sign * v)
  | None => NaN
  end.

(** [s.replace(/\./g, "")]. *)
Fixpoint removeDots (s : string) : string :=
  match s with
  | String c rest =>
      if Ascii.eqb c "." then removeDots rest else String c (removeDots rest)
  | EmptyString => EmptyString
  end.

(** [s.split("#")[0]]: the part before the first [#]. *)
Fixpoint beforeHash (s : string) : string :=
  match s with
  | String c rest =>
      if Ascii.eqb c "#" then EmptyString else String c (beforeHash rest)
  | EmptyString => EmptyString
  end.

End JsString.

Import JsString.

Module JsRender.

(** [`${x}`] for a number: ["NaN"], or the decimal digits with a leading
    minus sign, which is how the code prints an integer of at most 2^53
    in magnitude (beyond, it prints the shortest digits that identify the
    double, and from 10^21 on an exponent). *)
Definition numberToString (x : number) : string :=
  match x with
  | NaN => "NaN"
  | Int n => NilZero.string_of_int (Z.to_int n)
  end.

Definition isFeeChar (c : ascii) : bool :=
  let n := nat_of_ascii c in
  ((48 <=? n)%nat && (n <=? 57)%nat) || (n =? 46)%nat.

Fixpoint takeFee (s : string) : string :=
  match s with
  | String c rest => if isFeeChar c then String c (takeFee rest) else EmptyString
  | EmptyString => EmptyString
  end.

(** [s.match(/\$\s*([0-9.]+)/)], reduced to its capture group: the
    leftmost [$] that is followed, after optional white space, by a
    non-empty run of digits and dots; [None] when nothing matches. *)
Fixpoint matchFee (s : string) : option string :=
  match s with
  | String c rest =>
      if Ascii.eqb c "$" then
        match takeFee (trimStart rest) with
        | EmptyString => matchFee rest
        | capture => Some capture
        end
      else matchFee rest
  | EmptyString => None
  end.

(** [x ? x : null] on a string that may be absent. *)
Definition truthy (x : option string) : option string :=
  match x with
  | Some EmptyString => None
  | other => other
  end.

End JsRender.

Import JsRender.

(** ** Data model *)

Record HouseData : Type := mkHouseData {
  url : option string;
  maintenanceFee : option string;
  areaOfTHeHouse : option string;
  numberOfDorms : option string;
  numberOfBathrooms : option string;
  rentPrice : option string;
  description : option string
}.

Record ChatConfig : Type := mkChatConfig {
  searchLinks : list string;
  alreadySeenHouses : gmap string bool;
  maxPrice : Z
}.

(** [DataStore]: group identifier to configuration, in enumeration order. *)
Definition DataStore : Type := list (string * ChatConfig).

(** What the selectors of [retrieveHouseCardInfo] and [retrieveSpecs] read
    on a detail page; [None] is a missing element or a null [textContent]. *)
Record HousePage : Type := mkHousePage {
  fractionText : option string;       (* .andes-money-amount__fraction *)
  currencySymbol : option string;     (* .andes-money-amount__currency-symbol *)
  titleText : option string;          (* .ui-pdp-title *)
  specLabels : list (option string);  (* the BLACK/SMALL/REGULAR labels *)
  maintenanceFeeLabel : option string (* the maintenance-fee label *)
}.

(** A result card: the [href] of its first anchor, when it has one. *)
Definition Card : Type := option string.

Inductive Event : Type :=
| GotoSearch (link : string)
| GotoDetail (houseUrl : string)
| Post (chatId : string) (dataMessage : list HouseData)
| WriteFile (dataStore : DataStore).

(** The collaborators and the environment of one run.  [axiosPost] may
    depend on everything that happened before the call; the two [env]
    fields are [process.env.CHUNK_SIZE] and [process.env.UF_VALUE].
    Launching and closing the browser and opening or closing a tab are
    taken to succeed; a page that cannot be loaded or queried is [None]. *)
Record World : Type := mkWorld {
  searchPage : string -> option (list Card);
  housePage : string -> option HousePage;
  axiosPost : list Event -> string -> list HouseData -> bool;
  envCHUNK_SIZE : option string;
  envUF_VALUE : option string
}.

Definition CHUNK_SIZE (W : World) : number :=
  parseInt (default "1" (envCHUNK_SIZE W)).

Definition UF_VALUE (W : World) : number :=
  parseInt (default "38000" (envUF_VALUE W)).

(** ** Price normalisation and budget filter *)

Definition convertIntoClp (uf : number) (rawPrice unitPrice : string) : number :=
  let price := removeDots rawPrice in
  if String.eqb unitPrice "UF" then jsMul (parseInt price) uf else parseInt price.

(** The predicate of the [filter] that ends
    [retrieveHousesDataFromFilterLink]. *)
Definition budgetFilter (maxPrice : Z) (house : HouseData) : bool :=
  jsLt (jsAdd (parseInt (default "0" (rentPrice house)))
              (parseInt (default "0" (maintenanceFee house))))
       (Int maxPrice).

(** [alreadySeenHouses[url]] taken as a condition. *)
Definition isSeen (seen : gmap string bool) (u : string) : bool :=
  match seen !! u with
  | Some true => true
  | _ => false
  end.

Record Specs : Type := mkSpecs {
  specBathrooms : option string;
  specArea : option string;
  specDorms : option string;
  specMaintenanceFee : option string
}.

Definition retrieveSpecs (page : HousePage) : Specs :=
  let rawMaintenaceFee := default "" (maintenanceFeeLabel page) in
  {| specBathrooms := mjoin (specLabels page !! 2%nat);
     specArea := mjoin (specLabels page !! 0%nat);
     specDorms := mjoin (specLabels page !! 1%nat);
     specMaintenanceFee := matchFee rawMaintenaceFee |}.

(** Lines 366-394: the record built once the detail page is open. *)
Definition houseDataOfPage (uf : number) (u : string) (page : HousePage) : HouseData :=
  let price := fractionText page in
  let unitPrice := default "" (currencySymbol page) in
  let specs := retrieveSpecs page in
  let priceInClp := convertIntoClp uf (default "0" price) unitPrice in
  {| url := Some u;
     areaOfTHeHouse := truthy (specArea specs);
     numberOfDorms := truthy (specDorms specs);
     numberOfBathrooms := specBathrooms specs;
     rentPrice := match truthy price with
                  | Some _ => Some (numberToString priceInClp)
                  | None => None
                  end;
     description := truthy (titleText page);
     maintenanceFee := specMaintenanceFee specs |}.

(** ** The batcher *)

Section Chunking.
Context {A : Type}.

(** [ToIntegerOrInfinity] on the numbers of this model. *)
Definition toInteger (x : number) : Z :=
  match x with
  | NaN => 0
  | Int n => n
  end.

(** [array.slice(start, end)]: negative bounds count from the end, both
    bounds are clamped to the array. *)
Definition slice (array : list A) (start stop : number) : list A :=
  let len := Z.of_nat (length array) in
  let clamp x := if x <? 0 then Z.max (len + x) 0 else Z.min x len in
  let k := clamp (toInteger start) in
  let final := clamp (toInteger stop) in
  take (Z.to_nat (final - k)) (drop (Z.to_nat k) array).

(** The [for] loop of [chunkArray]; one unit of fuel per iteration, [None]
    when the fuel runs out before the loop condition fails. *)
Fixpoint chunkLoop (fuel : nat) (array : list A) (chunkSize : number)
    (i : number) (chunkedArray : list (list A)) : option (list (list A)) :=
  if jsLt i (Int (Z.of_nat (length array))) then
    match fuel with
    | O => None
    | S fuel' =>
        chunkLoop fuel' array chunkSize (jsAdd i chunkSize)
          (chunkedArray ++ [slice array i (jsAdd i chunkSize)])
    end
  else Some chunkedArray.

Definition chunkArray (fuel : nat) (array : list A) (chunkSize : number)
    : option (list (list A)) :=
  chunkLoop fuel array chunkSize (Int 0) [].

End Chunking.

(** ** Effects: the persisted file and the trace of outside calls *)

(** [file] is the parsed content of [dataStore.json], which is taken to
    exist, to hold a well-formed store and to be writable; [trace] lists
    the navigations, posts and file writes made so far, oldest first. *)
Record Machine : Type := mkMachine {
  file : DataStore;
  trace : list Event
}.

(** How a call ends: with a value, with an exception nobody caught, or
    not at all (the only loop that can spin is the one of [chunkArray]). *)
Inductive Outcome (A : Type) : Type :=
| Returned (a : A)
| Thrown
| Diverged.
Arguments Returned {A} a.
Arguments Thrown {A}.
Arguments Diverged {A}.

Definition M (A : Type) : Type := Machine -> Outcome A * Machine.

Definition ret {A} (a : A) : M A := fun st => (Returned a, st).

Definition bind {A B} (m : M A) (k : A -> M B) : M B :=
  fun st =>
    match m st with
    | (Returned a, st') => k a st'
    | (Thrown, st') => (Thrown, st')
    | (Diverged, st') => (Diverged, st')
    end.

Definition throw {A} : M A := fun st => (Thrown, st).
Definition diverge {A} : M A := fun st => (Diverged, st).

Definition emit (e : Event) : M unit :=
  fun st => (Returned tt, {| file := file st; trace := trace st ++ [e] |}).

Definition history : M (list Event) := fun st => (Returned (trace st), st).

Notation "x <- m ;; k" := (bind m (fun x => k))
  (at level 100, m at next level, right associativity).
Notation "m ;;; k" := (bind m (fun _ => k))
  (at level 100, right associativity).

(** [for (const x of xs) await body(x)]. *)
Fixpoint forEach {A} (xs : list A) (body : A -> M unit) : M unit :=
  match xs with
  | [] => ret tt
  | x :: rest => body x ;;; forEach rest body
  end.

(** ** The state store *)

Definition readDataStore : M DataStore := fun st => (Returned (file st), st).

Definition writeDataStore (dataStore : DataStore) : M unit :=
  fun st => (Returned tt, {| file := dataStore;
                             trace := trace st ++ [WriteFile dataStore] |}).

(** [dataStore[chatId]]. *)
Fixpoint lookupChat (chatId : string) (dataStore : DataStore) : option ChatConfig :=
  match dataStore with
  | [] => None
  | (k, cfg) :: rest => if String.eqb k chatId then Some cfg else lookupChat chatId rest
  end.

(** The object [dataStore] after [chatConfig], the value under [chatId],
    has been mutated into [cfg']. *)
Fixpoint storeChat (chatId : string) (cfg' : ChatConfig) (dataStore : DataStore)
    : DataStore :=
  match dataStore with
  | [] => []
  | (k, cfg) :: rest =>
      if String.eqb k chatId then (k, cfg') :: rest
      else (k, cfg) :: storeChat chatId cfg' rest
  end.

(** The loop [chatConfig.alreadySeenHouses[house.url ?? ""] = true]. *)
Definition markAll (housesData : list HouseData) (seen : gmap string bool)
    : gmap string bool :=
  foldl (fun acc house => <[default "" (url house) := true]> acc) seen housesData.

(** The in-memory part of [updateAlreadySeenHouses]: [None] is the
    [TypeError] raised by [chatConfig.alreadySeenHouses] when [chatId] has
    no entry and the loop body runs at least once. *)
Definition markSeen (chatId : string) (housesData : list HouseData)
    (dataStore : DataStore) : option DataStore :=
  match lookupChat chatId dataStore with
  | Some chatConfig =>
      Some (storeChat chatId
              {| searchLinks := searchLinks chatConfig;
                 alreadySeenHouses := markAll housesData (alreadySeenHouses chatConfig);
                 maxPrice := maxPrice chatConfig |}
              dataStore)
  | None =>
      match housesData with
      | [] => Some dataStore
      | _ :: _ => None
      end
  end.

Definition updateAlreadySeenHouses (chatId : string) (housesData : list HouseData)
    : M unit :=
  dataStore <- readDataStore ;;
  match markSeen chatId housesData dataStore with
  | Some dataStore' => writeDataStore dataStore'
  | None => throw
  end.

(** ** The pipeline *)

Section Pipeline.
Variable W : World.

Definition sendMessageToTelegram (chatId : string) (dataMessage : list HouseData)
    : M unit :=
  match dataMessage with
  | [] => ret tt
  | _ :: _ =>
      before <- history ;;
      emit (Post chatId dataMessage) ;;;
      if axiosPost W before chatId dataMessage then ret tt else throw
  end.

(** The body sits in a [try]/[catch] that turns every failure into
    [null], so the function always returns; a card whose anchor lookup
    fails behaves like a card without anchor. *)
Definition retrieveHouseCardInfo (houseCard : Card) (seen : gmap string bool)
    : M (option HouseData) :=
  let rawUrl := default "" houseCard in
  let u := beforeHash rawUrl in
  let isHouseAlreadySeen := isSeen seen u in
  if String.eqb u "" || isHouseAlreadySeen then ret None
  else
    emit (GotoDetail u) ;;;
    match housePage W u with
    | Some page => ret (Some (houseDataOfPage (UF_VALUE W) u page))
    | None => ret None
    end.

Fixpoint cardsLoop (allHouseCards : list Card) (seen : gmap string bool)
    (housesData : list HouseData) : M (list HouseData) :=
  match allHouseCards with
  | [] => ret housesData
  | houseCard :: rest =>
      houseData <- retrieveHouseCardInfo houseCard seen ;;
      match houseData with
      | None => cardsLoop rest seen housesData
      | Some h => cardsLoop rest seen (housesData ++ [h])
      end
  end.

Definition retrieveHousesDataFromFilterLink (link : string)
    (seen : gmap string bool) (searchConfig : ChatConfig) : M (list HouseData) :=
  emit (GotoSearch link) ;;;
  match searchPage W link with
  | None => throw
  | Some allHouseCards =>
      housesData <- cardsLoop allHouseCards seen [] ;;
      ret (filter (fun house => budgetFilter (maxPrice searchConfig) house = true)
                  housesData)
  end.

Fixpoint linksLoop (seachLinks : list string) (searchConfig : ChatConfig)
    (allHousesLinkData : list HouseData) : M (list HouseData) :=
  match seachLinks with
  | [] => ret allHousesLinkData
  | houseLink :: rest =>
      housesFromLink <-
        retrieveHousesDataFromFilterLink houseLink
          (alreadySeenHouses searchConfig) searchConfig ;;
      linksLoop rest searchConfig (allHousesLinkData ++ housesFromLink)
  end.

Definition processSearchHousesByChat (fuel : nat) (chatId : string)
    (searchConfig : ChatConfig) : M unit :=
  allHousesLinkData <- linksLoop (searchLinks searchConfig) searchConfig [] ;;
  match chunkArray fuel allHousesLinkData (CHUNK_SIZE W) with
  | None => diverge
  | Some chunkedData =>
      forEach chunkedData (sendMessageToTelegram chatId) ;;;
      updateAlreadySeenHouses chatId allHousesLinkData
  end.

Definition processGroups (fuel : nat) (groups : DataStore) : M unit :=
  forEach groups (fun g => processSearchHousesByChat fuel g.1 g.2).

Definition main (fuel : nat) : M unit :=
  dataStore <- readDataStore ;;
  processGroups fuel dataStore.

End Pipeline.

(** ** Decimal text, on the specification side *)

Definition isDigit (c : ascii) : bool :=
  let n := nat_of_ascii c in (48 <=? n)%nat && (n <=? 57)%nat.

Fixpoint allDigits (s : string) : bool :=
  match s with
  | String c rest => isDigit c && allDigits rest
  | EmptyString => true
  end.

(** The integer a digit string denotes, by positional weight. *)
Fixpoint decimalValue (s : string) : Z :=
  match s with
  | String c rest =>
      (Z.of_nat (nat_of_ascii c) - 48) * 10 ^ Z.of_nat (String.length rest)
      + decimalValue rest
  | EmptyString => 0
  end.

(** Well-formed raw price text: once the dots are gone, a non-empty run of
    decimal digits. *)
Definition wellFormedPrice (rawPrice : string) : Prop :=
  removeDots rawPrice <> "" /\ allDigits (removeDots rawPrice) = true.

(** The two operands of the budget comparison, as the filter reads them
    off a listing. *)
Definition rentOperand (house : HouseData) : number :=
  parseInt (default "0" (rentPrice house)).

Definition feeOperand (house : HouseData) : number :=
  parseInt (default "0" (maintenanceFee house)).

(** The integer [z] is at most 2^53 in magnitude, the range in which a
    double holds every integer: there the exact arithmetic of [number]
    and the arithmetic of the code coincide. *)
Definition exact (z : Z) : Prop := Z.abs z <= 2 ^ 53.

Definition exactNumber (x : number) : Prop :=
  match x with
  | NaN => True
  | Int z => exact z
  end.

(** ** The shape of a text, for what [parseInt] makes of it *)

(** A text made of white-space characters only. *)
Inductive whiteSpaces : string -> Prop :=
| ws_none : whiteSpaces ""
| ws_one c rest :
    isWhiteSpace c = true -> whiteSpaces rest -> whiteSpaces (String c rest)
| ws_two c1 c2 rest :
    isWhiteSpace2 c1 c2 = true -> whiteSpaces rest ->
    whiteSpaces (String c1 (String c2 rest))
| ws_three c1 c2 c3 rest :
    isWhiteSpace3 c1 c2 c3 = true -> whiteSpaces rest ->
    whiteSpaces (String c1 (String c2 (String c3 rest))).

Definition beginsWithWhiteSpace (s : string) : Prop :=
  exists w rest, s = String.append w rest /\ w <> "" /\ whiteSpaces w.

Definition beginsWithSign (s : string) : Prop :=
  exists rest, s = String "+" rest \/ s = String "-" rest.

(** A text cut into leading white space, an optional sign, and the rest:
    [sign] is ["+"], ["-"], or empty when the rest begins with neither
    white space nor a sign. *)
Definition cutForReading (text ws sign body : string) : Prop :=
  text = String.append ws (String.append sign body)
  /\ whiteSpaces ws
  /\ (sign = "+" \/ sign = "-"
      \/ (sign = "" /\ ~ beginsWithWhiteSpace body /\ ~ beginsWithSign body)).

Definition signValue (sign : string) : Z :=
  if String.eqb sign "-" then -1 else 1.

(** The digits a string begins with. *)
Fixpoint leadingDigits (s : string) : string :=
  match s with
  | String c rest => if isDigit c then String c (leadingDigits rest) else EmptyString
  | EmptyString => EmptyString
  end.

Definition isHexDigit (c : ascii) : bool :=
  let n := nat_of_ascii c in
  ((48 <=? n) && (n <=? 57) || (97 <=? n) && (n <=? 102)
   || (65 <=? n) && (n <=? 70))%nat.

Fixpoint leadingHexDigits (s : string) : string :=
  match s with
  | String c rest =>
      if isHexDigit c then String c (leadingHexDigits rest) else EmptyString
  | EmptyString => EmptyString
  end.

Definition hexDigitValue (c : ascii) : Z :=
  let n := Z.of_nat (nat_of_ascii c) in
  if n <=? 57 then n - 48 else if n <=? 70 then n - 55 else n - 87.

(** The integer a string of hexadecimal digits denotes. *)
Fixpoint hexValue (s : string) : Z :=
  match s with
  | String c rest =>
      hexDigitValue c * 16 ^ Z.of_nat (String.length rest) + hexValue rest
  | EmptyString => 0
  end.

(** What follows [0x] or [0X], when the text begins so. *)
Definition afterHexPrefix (s : string) : option string :=
  match s with
  | String "0" (String "x" rest) => Some rest
  | String "0" (String "X" rest) => Some rest
  | _ => None
  end.

(** The integer an unsigned text begins with: hexadecimal digits after a
    [0x] prefix, decimal digits otherwise; [None] when there is no digit
    to read. *)
Definition bodyValue (body : string) : option Z :=
  match afterHexPrefix body with
  | Some digits =>
      match leadingHexDigits digits with
      | EmptyString => None
      | hex => Some (hexValue hex)
      end
  | None =>
      match leadingDigits body with
      | EmptyString => None
      | digits => Some (decimalValue digits)
      end
  end.

(** What [parseInt] is to make of a text cut into white space, [sign] and
    [body]: the signed value of the digits the body begins with, [NaN]
    when it begins with none. *)
Definition readValue (sign body : string) : number :=
  match bodyValue body with
  | Some v => Int (signValue sign * v)
  | None => NaN
  end.

(** The shape of a chunked list: every chunk but the last has exactly
    [size] elements, the last has between 1 and [size]. *)
Fixpoint chunked {A} (size : nat) (chunks : list (list A)) : Prop :=
  match chunks with
  | [] => True
  | c :: rest =>
      match rest with
      | [] => (0 < length c <= size)%nat
      | _ :: _ => length c = size
      end /\ chunked size rest
  end.

(** ** What a run amounts to

    Closed forms of the loops above: the value a loop returns and the
    events it appends to the trace, as functions of the world. *)

Definition log (st : Machine) (events : list Event) : Machine :=
  {| file := file st; trace := trace st ++ events |}.

Definition cardUrl (houseCard : Card) : string :=
  beforeHash (default "" houseCard).

Definition cardSkipped (seen : gmap string bool) (houseCard : Card) : bool :=
  String.eqb (cardUrl houseCard) "" || isSeen seen (cardUrl houseCard).

Definition cardResult (W : World) (seen : gmap string bool) (houseCard : Card)
    : option HouseData :=
  if cardSkipped seen houseCard then None
  else houseDataOfPage (UF_VALUE W) (cardUrl houseCard)
         <$> housePage W (cardUrl houseCard).

Definition cardEvents (seen : gmap string bool) (houseCard : Card) : list Event :=
  if cardSkipped seen houseCard then [] else [GotoDetail (cardUrl houseCard)].

(** The listings extracted from one results page, before the filter. *)
Definition pageExtracted (W : World) (seen : gmap string bool)
    (cards : list Card) : list HouseData :=
  omap (cardResult W seen) cards.

Definition pageEvents (seen : gmap string bool) (cards : list Card) : list Event :=
  concat (map (cardEvents seen) cards).

Definition accepted (searchConfig : ChatConfig) (housesData : list HouseData)
    : list HouseData :=
  filter (fun house => budgetFilter (maxPrice searchConfig) house = true) housesData.

Fixpoint linksResult (W : World) (searchConfig : ChatConfig) (links : list string)
    : option (list HouseData) :=
  match links with
  | [] => Some []
  | link :: rest =>
      match searchPage W link with
      | None => None
      | Some cards =>
          app (accepted searchConfig
                 (pageExtracted W (alreadySeenHouses searchConfig) cards))
            <$> linksResult W searchConfig rest
      end
  end.

Fixpoint linksEvents (W : World) (searchConfig : ChatConfig) (links : list string)
    : list Event :=
  match links with
  | [] => []
  | link :: rest =>
      GotoSearch link ::
      match searchPage W link with
      | None => []
      | Some cards =>
          pageEvents (alreadySeenHouses searchConfig) cards
          ++ linksEvents W searchConfig rest
      end
  end.

(** The dispatch loop from a trace [tr]: whether every delivery went
    through, and the [Post] events it appended. *)
Fixpoint dispatch (W : World) (chatId : string) (chunks : list (list HouseData))
    (tr : list Event) : bool * list Event :=
  match chunks with
  | [] => (true, [])
  | [] :: rest => dispatch W chatId rest tr
  | chunk :: rest =>
      if axiosPost W tr chatId chunk then
        let r := dispatch W chatId rest (tr ++ [Post chatId chunk]) in
        (r.1, Post chatId chunk :: r.2)
      else (false, [Post chatId chunk])
  end.

(** A detail page is opened only for a URL that does not count as seen. *)
Definition opensOnlyUnseen (seen : gmap string bool) (e : Event) : Prop :=
  match e with
  | GotoDetail u => isSeen seen u = false
  | _ => True
  end.

(** [house] was extracted, in this run, from a results page of one of the
    group's search links. *)
Definition extractedOn (W : World) (searchConfig : ChatConfig) (house : HouseData)
    : Prop :=
  exists link cards,
    link ∈ searchLinks searchConfig
    /\ searchPage W link = Some cards
    /\ house ∈ pageExtracted W (alreadySeenHouses searchConfig) cards.

(** The key under which [updateAlreadySeenHouses] records a listing. *)
Definition seenKey (house : HouseData) : string := default "" (url house).

(** A group entry [after] keeps everything [before] had: the same search
    links, the same maximum price, every key of the seen-set, and every
    URL that counted as seen. *)
Definition entryGrows (before after : ChatConfig) : Prop :=
  searchLinks after = searchLinks before
  /\ maxPrice after = maxPrice before
  /\ (forall u, is_Some (alreadySeenHouses before !! u) ->
                is_Some (alreadySeenHouses after !! u))
  /\ (forall u, isSeen (alreadySeenHouses before) u = true ->
                isSeen (alreadySeenHouses after) u = true).

(** ** Concrete pages and worlds used to exercise the pipeline *)

Module Scenario.

Definition pageOf (price symbol : string) (feeLabel : option string) : HousePage :=
  {| fractionText := Some price;
     currencySymbol := Some symbol;
     titleText := Some "Departamento en arriendo";
     specLabels := [Some "50 m2"; Some "2 dormitorios"; Some "1 bano"];
     maintenanceFeeLabel := feeLabel |}.

(** Rent 400.000 pesos, maintenance fee 150.000 pesos. *)
Definition feePage : HousePage :=
  pageOf "400.000" "$" (Some "Gastos comunes aproximados $ 150.000").

(** A price fraction that holds no digit. *)
Definition consultPage : HousePage := pageOf "Consultar" "$" None.

(** A listing as the pipeline would hold it, given its two amounts. *)
Definition listing (u : string) (rent : Z) (fee : option string) : HouseData :=
  {| url := Some u;
     maintenanceFee := fee;
     areaOfTHeHouse := None;
     numberOfDorms := None;
     numberOfBathrooms := None;
     rentPrice := Some (numberToString (Int rent));
     description := None |}.

Definition groupA : ChatConfig :=
  {| searchLinks := ["https://portal/a"];
     alreadySeenHouses := {["https://casa/0" := true]};
     maxPrice := 500000 |}.

Definition groupB : ChatConfig :=
  {| searchLinks := ["https://portal/b"];
     alreadySeenHouses := ∅;
     maxPrice := 900000 |}.

Definition store : DataStore := [("-1001", groupA); ("-1002", groupB)].

(** Group B on a budget of 500000. *)
Definition groupTight : ChatConfig :=
  {| searchLinks := ["https://portal/b"];
     alreadySeenHouses := ∅;
     maxPrice := 500000 |}.

Definition storeTight : DataStore := [("-1002", groupTight)].

(** Group A once ["https://casa/1"] has been reported to it. *)
Definition groupA' : ChatConfig :=
  {| searchLinks := ["https://portal/a"];
     alreadySeenHouses := {["https://casa/0" := true; "https://casa/1" := true]};
     maxPrice := 500000 |}.

(** Two result pages; the delivery of the batch that carries
    ["https://casa/4"] fails, every other delivery goes through. *)
Definition portal : World :=
  {| searchPage := fun link =>
       if String.eqb link "https://portal/a" then
         Some [Some "https://casa/0#fotos"; Some "https://casa/1"]
       else if String.eqb link "https://portal/b" then
         Some [Some "https://casa/3"; Some "https://casa/4"; None;
               Some "https://casa/5"]
       else None;
     housePage := fun u =>
       if String.eqb u "https://casa/1" then Some (pageOf "300.000" "$" None)
       else if String.eqb u "https://casa/3" then Some (pageOf "500.000" "$" None)
       else if String.eqb u "https://casa/4" then Some (pageOf "10" "UF" None)
       else if String.eqb u "https://casa/5" then Some (pageOf "700.000" "$" None)
       else None;
     axiosPost := fun _ _ dataMessage =>
       negb (bool_decide (map url dataMessage = [Some "https://casa/4"]));
     envCHUNK_SIZE := None;
     envUF_VALUE := None |}.

(** The same portal with a transport that never fails. *)
Definition reliable : World :=
  {| searchPage := searchPage portal;
     housePage := housePage portal;
     axiosPost := fun _ _ _ => true;
     envCHUNK_SIZE := None;
     envUF_VALUE := None |}.

Definition start : Machine := {| file := store; trace := [] |}.

Definition startTight : Machine := {| file := storeTight; trace := [] |}.

(** The three listings behind ["https://portal/b"]. *)
Definition casa3 : HouseData :=
  houseDataOfPage (Int 38000) "https://casa/3" (pageOf "500.000" "$" None).
Definition casa4 : HouseData :=
  houseDataOfPage (Int 38000) "https://casa/4" (pageOf "10" "UF" None).
Definition casa5 : HouseData :=
  houseDataOfPage (Int 38000) "https://casa/5" (pageOf "700.000" "$" None).

Definition visitsB : list Event :=
  [GotoSearch "https://portal/b"; GotoDetail "https://casa/3";
   GotoDetail "https://casa/4"; GotoDetail "https://casa/5"].

End Scenario.

(** ** Vocabulary for the further properties *)

(** [c] occurs in [s]. *)
Fixpoint mentions (c : ascii) (s : string) : bool :=
  match s with
  | String c' rest => Ascii.eqb c' c || mentions c rest
  | EmptyString => false
  end.

(** Only digits and dots, the characters of the class [[0-9.]]. *)
Fixpoint allFeeChars (s : string) : bool :=
  match s with
  | String c rest => isFeeChar c && allFeeChars rest
  | EmptyString => true
  end.

(** [s] does not begin with a character of [[0-9.]]. *)
Definition feeStops (s : string) : bool :=
  match s with
  | String c _ => negb (isFeeChar c)
  | EmptyString => true
  end.

(** A fee label whose amount follows the [$] after a no-break space
    (U+00A0, the bytes C2 A0). *)
Definition noBreakLabel : string :=
  String.append "Gastos comunes $"
    (String (ascii_of_nat 194) (String (ascii_of_nat 160) "150.000 aprox.")).

Definition isNavigation (e : Event) : Prop :=
  match e with
  | GotoSearch _ | GotoDetail _ => True
  | _ => False
  end.

(** The payloads of the posts of a trace, oldest first. *)
Fixpoint posted (events : list Event) : list (list HouseData) :=
  match events with
  | [] => []
  | Post _ dataMessage :: rest => dataMessage :: posted rest
  | _ :: rest => posted rest
  end.

(** What an extracted listing is known to satisfy: it carries the key of
    the card it came from, that key is a non-empty URL without fragment
    that did not count as seen, and none of the fields that the code
    passes through [x ? x : null], nor the rent, nor the fee, is the empty
    text. *)
Definition wellExtracted (seen : gmap string bool) (house : HouseData) : Prop :=
  (exists u, url house = Some u /\ u <> "" /\ mentions "#" u = false
             /\ isSeen seen u = false)
  /\ areaOfTHeHouse house <> Some ""
  /\ numberOfDorms house <> Some ""
  /\ description house <> Some ""
  /\ rentPrice house <> Some ""
  /\ maintenanceFee house <> Some "".

Module Misconfigured.

(** The portal of [Scenario] run with [CHUNK_SIZE=uno] in the environment. *)
Definition portal : World :=
  {| searchPage := searchPage Scenario.portal;
     housePage := housePage Scenario.portal;
     axiosPost := fun _ _ _ => true;
     envCHUNK_SIZE := Some "uno";
     envUF_VALUE := None |}.

(** The same with [CHUNK_SIZE=0]. *)
Definition zero : World :=
  {| searchPage := searchPage Scenario.portal;
     housePage := housePage Scenario.portal;
     axiosPost := fun _ _ _ => true;
     envCHUNK_SIZE := Some "0";
     envUF_VALUE := None |}.

Definition startB : Machine :=
  {| file := [("-1002", Scenario.groupB); ("-1001", Scenario.groupA)];
     trace := [] |}.

End Misconfigured.

(** The entry of a group once the listings [found] have been recorded. *)
Definition marked (found : list HouseData) (cfg : ChatConfig) : ChatConfig :=
  {| searchLinks := searchLinks cfg;
     alreadySeenHouses := markAll found (alreadySeenHouses cfg);
     maxPrice := maxPrice cfg |}.

(** A configuration for which the collection phase returns no listing. *)
Definition settled (W : World) (cfg : ChatConfig) : Prop :=
  linksResult W cfg (searchLinks cfg) = Some [].

(** Every group entry of [before] is still in [after], grown, and the
    groups are enumerated in the same order. *)
Definition storeGrows (before after : DataStore) : Prop :=
  map fst after = map fst before
  /\ forall g cfg, lookupChat g before = Some cfg ->
       exists cfg', lookupChat g after = Some cfg' /\ entryGrows cfg cfg'.

(** * Properties *)

(** ** Reading decimal text *)

Lemma digitValue_digit c :
  isDigit c = true -> digitValue c = Some (Z.of_nat (nat_of_ascii c) - 48).
Proof.
  unfold isDigit, digitValue. intros H.
  apply andb_true_iff in H as [H1 H2].
  apply Nat.leb_le in H1. apply Nat.leb_le in H2.
  replace (48 <=? Z.of_nat (nat_of_ascii c)) with true
    by (symmetry; apply Z.leb_le; lia).
  replace (Z.of_nat (nat_of_ascii c) <=? 57) with true
    by (symmetry; apply Z.leb_le; lia).
  reflexivity.
Qed.

Lemma isDigit_bounds c :
  isDigit c = true -> 0 <= Z.of_nat (nat_of_ascii c) - 48 < 10.
Proof.
  unfold isDigit. intros H.
  apply andb_true_iff in H as [H1 H2].
  apply Nat.leb_le in H1. apply Nat.leb_le in H2. lia.
Qed.

Lemma decimalValue_nonneg s : allDigits s = true -> 0 <= decimalValue s.
Proof.
  induction s as [|c rest IH]; simpl; intros H; [lia|].
  apply andb_true_iff in H as [Hc Hr].
  pose proof (isDigit_bounds c Hc). specialize (IH Hr).
  assert (0 <= 10 ^ Z.of_nat (String.length rest)) by (apply Z.pow_nonneg; lia).
  nia.
Qed.

Lemma parseDigits_decimal s acc :
  allDigits s = true ->
  parseDigits 10 s (Some acc)
  = Some (acc * 10 ^ Z.of_nat (String.length s) + decimalValue s).
Proof.
  revert acc. induction s as [|c rest IH]; intros acc H; simpl.
  - f_equal. lia.
  - apply andb_true_iff in H as [Hc Hr].
    rewrite (digitValue_digit c Hc).
    pose proof (isDigit_bounds c Hc) as Hb.
    replace (Z.of_nat (nat_of_ascii c) - 48 <? 10) with true
      by (symmetry; apply Z.ltb_lt; lia).
    rewrite (IH _ Hr). f_equal.
    rewrite Nat2Z.inj_succ, Z.pow_succ_r by lia.
    cbn [default]. ring.
Qed.

Lemma parseDigits_decimal_start s :
  s <> "" -> allDigits s = true ->
  parseDigits 10 s None = Some (decimalValue s).
Proof.
  destruct s as [|c rest]; [congruence|]. intros _ H.
  cbn [parseDigits].
  pose proof H as H'. cbn [allDigits] in H'.
  apply andb_true_iff in H' as [Hc Hr].
  rewrite (digitValue_digit c Hc).
  pose proof (isDigit_bounds c Hc) as Hb.
  replace (Z.of_nat (nat_of_ascii c) - 48 <? 10) with true
    by (symmetry; apply Z.ltb_lt; lia).
  rewrite (parseDigits_decimal rest _ Hr). cbn [default decimalValue].
  f_equal; ring.
Qed.

(** A digit is neither white space, nor a sign, nor the [x] of a hex prefix. *)
Lemma digit_plain c rest :
  isDigit c = true ->
  trimStart (String c rest) = String c rest
  /\ stripSign (String c rest) = (1, String c rest).
Proof.
  destruct c as [[] [] [] [] [] [] [] []]; cbn; intros H;
    try discriminate H; split; reflexivity.
Qed.

Lemma digits_no_hex_prefix s :
  allDigits s = true -> stripHexPrefix s = (10, s).
Proof.
  destruct s as [|c [|c' rest]]; try reflexivity.
  - intros _. destruct c as [[] [] [] [] [] [] [] []]; reflexivity.
  - cbn [allDigits]. intros H.
    apply andb_true_iff in H as [_ H]. apply andb_true_iff in H as [H _].
    destruct c' as [[] [] [] [] [] [] [] []]; cbn in H; try discriminate H;
      destruct c as [[] [] [] [] [] [] [] []]; reflexivity.
Qed.

Lemma parseInt_decimal s :
  s <> "" -> allDigits s = true -> parseInt s = Int (decimalValue s).
Proof.
  intros Hne Hd. unfold parseInt.
  destruct s as [|c rest]; [congruence|].
  pose proof Hd as Hd'. cbn [allDigits] in Hd'.
  apply andb_true_iff in Hd' as [Hc _].
  destruct (digit_plain c rest Hc) as [-> ->].
  rewrite (digits_no_hex_prefix _ Hd).
  rewrite (parseDigits_decimal_start _ Hne Hd).
  f_equal. lia.
Qed.




(** ** Printing a number and reading it back *)

Ltac eval_char_codes :=
  repeat match goal with
  | |- context [Z.of_nat (nat_of_ascii ?c)] =>
      let v := eval vm_compute in (Z.of_nat (nat_of_ascii c)) in
      change (Z.of_nat (nat_of_ascii c)) with v
  end.

Lemma string_of_uint_digits d : allDigits (NilEmpty.string_of_uint d) = true.
Proof. induction d; simpl; auto. Qed.

Lemma parseDigits_uint_acc d acc :
  parseDigits 10 (NilEmpty.string_of_uint d) (Some (Z.pos acc))
  = Some (Z.pos (Pos.of_uint_acc d acc)).
Proof.
  revert acc. induction d; intros acc; cbn -[Z.mul Z.add Pos.mul Pos.add];
    try reflexivity; rewrite <- IHd; do 2 f_equal; eval_char_codes; lia.
Qed.

Lemma parseDigits_uint_zero d :
  parseDigits 10 (NilEmpty.string_of_uint d) (Some 0)
  = Some (Z.of_N (Pos.of_uint d)).
Proof.
  induction d; cbn -[Z.mul Z.add Pos.mul Pos.add]; try reflexivity;
    try exact IHd; apply (parseDigits_uint_acc d).
Qed.

Lemma parseDigits_uint d :
  d <> Decimal.Nil ->
  parseDigits 10 (NilEmpty.string_of_uint d) None = Some (Z.of_N (Pos.of_uint d)).
Proof.
  destruct d; intros H; try congruence; cbn -[Z.mul Z.add Pos.mul Pos.add];
    first [apply parseDigits_uint_zero | apply (parseDigits_uint_acc d)].
Qed.

Lemma parseInt_uint d :
  d <> Decimal.Nil ->
  parseInt (NilEmpty.string_of_uint d) = Int (Z.of_N (Pos.of_uint d)).
Proof.
  intros H. rewrite parseInt_decimal.
  - pose proof (parseDigits_uint d H) as P.
    rewrite parseDigits_decimal_start in P.
    + congruence.
    + destruct d; simpl; congruence.
    + apply string_of_uint_digits.
  - destruct d; simpl; congruence.
  - apply string_of_uint_digits.
Qed.

Lemma parseInt_negated s :
  s <> "" -> allDigits s = true ->
  parseInt (String "-" s) = Int (- decimalValue s).
Proof.
  intros Hne Hd. unfold parseInt.
  change (stripSign (trimStart (String "-" s))) with (-1, s).
  cbv beta iota. rewrite (digits_no_hex_prefix _ Hd).
  rewrite (parseDigits_decimal_start _ Hne Hd). f_equal; lia.
Qed.

Lemma string_of_uint_nonnil d :
  d <> Decimal.Nil ->
  NilZero.string_of_uint d = NilEmpty.string_of_uint d
  /\ NilEmpty.string_of_uint d <> "".
Proof. destruct d; intros H; try congruence; split; simpl; congruence. Qed.

(** On the integers of the model, reading a printed number gives the
    number again, and ["NaN"] reads as [NaN]. *)
Lemma parseInt_numberToString (x : number) : parseInt (numberToString x) = x.
Proof.
  destruct x as [|[|p|p]]; try reflexivity; unfold numberToString; cbn [Z.to_int];
    pose proof (DecimalPos.Unsigned.to_uint_nonnil p) as Hn;
    pose proof (DecimalPos.Unsigned.of_to p) as Hp;
    destruct (string_of_uint_nonnil _ Hn) as [Hz Hs];
    unfold NilZero.string_of_int; rewrite Hz.
  - rewrite parseInt_uint by exact Hn. rewrite Hp. reflexivity.
  - pose proof (parseInt_uint _ Hn) as Hu.
    rewrite parseInt_decimal in Hu by (first [exact Hs | apply string_of_uint_digits]).
    rewrite parseInt_negated by (first [exact Hs | apply string_of_uint_digits]).
    injection Hu as ->. rewrite Hp. reflexivity.
Qed.

(** ** The budget filter *)

Lemma budgetFilter_operands maxTotal house :
  budgetFilter maxTotal house
  = jsLt (jsAdd (rentOperand house) (feeOperand house)) (Int maxTotal).
Proof. reflexivity. Qed.

(** The comparison is strict and needs both operands to be integers. *)
Lemma budgetFilter_true_iff maxTotal house :
  budgetFilter maxTotal house = true <->
  exists r m, rentOperand house = Int r /\ feeOperand house = Int m
              /\ r + m < maxTotal.
Proof.
  rewrite budgetFilter_operands.
  destruct (rentOperand house) as [|r], (feeOperand house) as [|m]; cbn.
  1-3: split; [discriminate | intros (r' & m' & H1 & H2 & _); congruence].
  rewrite Z.ltb_lt. split.
  - intros H. exists r, m. auto.
  - intros (r' & m' & H1 & H2 & H). congruence.
Qed.

(** An absent field counts as zero. *)
Lemma operands_absent house :
  (rentPrice house = None -> rentOperand house = Int 0)
  /\ (maintenanceFee house = None -> feeOperand house = Int 0).
Proof.
  unfold rentOperand, feeOperand. split; intros ->; reflexivity.
Qed.

(** On the rent side the filter reads back exactly what [convertIntoClp]
    produced for the page. *)
Lemma rentOperand_extracted uf u page rawPrice :
  fractionText page = Some rawPrice -> rawPrice <> "" ->
  rentOperand (houseDataOfPage uf u page)
  = convertIntoClp uf rawPrice (default "" (currencySymbol page)).
Proof.
  intros Hp Hne. unfold rentOperand, houseDataOfPage. cbn [rentPrice].
  rewrite Hp. cbn [default truthy].
  destruct rawPrice; [congruence|]. cbn [default].
  apply parseInt_numberToString.
Qed.

(** On the fee side it reads the text captured by the regular expression,
    dots included. *)
Lemma feeOperand_extracted uf u page :
  feeOperand (houseDataOfPage uf u page)
  = parseInt (default "0" (matchFee (default "" (maintenanceFeeLabel page)))).
Proof. reflexivity. Qed.

(** C1.  The budget filter at a listing with rent 400.000 and maintenance
    fee 150.000 against a threshold of 500000: the rent enters the
    comparison normalised (400000) but the fee enters as [parseInt] of the
    captured text ["150.000"], that is 150, so the listing is accepted
    although its normalised total 550000 is not below the threshold. *)
Theorem budgetFilter_fee_read_up_to_first_dot :
  let house := houseDataOfPage (Int 38000) "https://casa/1" Scenario.feePage in
  rentPrice house = Some "400000"
  /\ maintenanceFee house = Some "150.000"
  /\ rentOperand house = Int 400000
  /\ feeOperand house = Int 150
  /\ convertIntoClp (Int 38000) "150.000" "$" = Int 150000
  /\ budgetFilter 500000 house = true
  /\ (400000 + 150000 <? 500000) = false.
Proof. cbv zeta. repeat split; vm_compute; reflexivity. Qed.

(** ** What [parseInt] makes of a text *)

Lemma append_cons c (a b : string) :
  String.append (String c a) b = String c (String.append a b).
Proof. reflexivity. Qed.

Lemma append_empty (b : string) : String.append "" b = b.
Proof. reflexivity. Qed.

Lemma whiteSpace2_lead c1 c2 :
  isWhiteSpace2 c1 c2 = true ->
  isWhiteSpace c1 = false /\ isWhiteSpaceLead c1 = true.
Proof.
  destruct c1 as [[] [] [] [] [] [] [] []]; cbn; intros H;
    try discriminate H; split; reflexivity.
Qed.

Lemma whiteSpace3_lead c1 c2 c3 :
  isWhiteSpace3 c1 c2 c3 = true ->
  isWhiteSpace c1 = false /\ isWhiteSpaceLead c1 = true
  /\ isWhiteSpace2 c1 c2 = false.
Proof.
  destruct c1 as [[] [] [] [] [] [] [] []]; cbn; intros H;
    try discriminate H; repeat split; reflexivity.
Qed.

Lemma trimStart_whiteSpaces ws t :
  whiteSpaces ws -> trimStart (String.append ws t) = trimStart t.
Proof.
  induction 1 as [|c rest Hc _ IH|c1 c2 rest H2 _ IH|c1 c2 c3 rest H3 _ IH];
    rewrite ?append_cons, ?append_empty; [reflexivity| | |].
  - cbn [trimStart]. now rewrite Hc.
  - destruct (whiteSpace2_lead _ _ H2) as [Hn Hl].
    cbn [trimStart]. now rewrite Hn, Hl, H2.
  - destruct (whiteSpace3_lead _ _ _ H3) as (Hn & Hl & Hn2).
    cbn [trimStart]. now rewrite Hn, Hl, Hn2, H3.
Qed.

Lemma trimStart_plain t : ~ beginsWithWhiteSpace t -> trimStart t = t.
Proof.
  intros Hplain. destruct t as [|c1 r1]; [reflexivity|]. cbn [trimStart].
  destruct (isWhiteSpace c1) eqn:H1.
  { exfalso. apply Hplain. exists (String c1 ""), r1.
    split; [reflexivity|]. split; [discriminate|]. now repeat constructor. }
  destruct (isWhiteSpaceLead c1); [|reflexivity].
  destruct r1 as [|c2 r2]; [reflexivity|].
  destruct (isWhiteSpace2 c1 c2) eqn:H2.
  { exfalso. apply Hplain. exists (String c1 (String c2 "")), r2.
    split; [reflexivity|]. split; [discriminate|]. apply ws_two; [exact H2 | constructor]. }
  destruct r2 as [|c3 r3]; [reflexivity|].
  destruct (isWhiteSpace3 c1 c2 c3) eqn:H3; [|reflexivity].
  exfalso. apply Hplain. exists (String c1 (String c2 (String c3 ""))), r3.
  split; [reflexivity|]. split; [discriminate|]. apply ws_three; [exact H3 | constructor].
Qed.

Lemma stripSign_plain body : ~ beginsWithSign body -> stripSign body = (1, body).
Proof.
  intros Hplain. destruct body as [|c rest]; [reflexivity|].
  destruct c as [[] [] [] [] [] [] [] []]; try reflexivity;
    exfalso; apply Hplain; exists rest; auto.
Qed.

Lemma cut_sign text ws sign body :
  cutForReading text ws sign body ->
  stripSign (trimStart text) = (signValue sign, body).
Proof.
  intros (-> & Hws & Hsign). rewrite (trimStart_whiteSpaces _ _ Hws).
  destruct Hsign as [->|[->|(-> & Hw & Hs)]]; [reflexivity | reflexivity |].
  rewrite append_empty, (trimStart_plain _ Hw). now apply stripSign_plain.
Qed.

Lemma nondigit_stops c d :
  isDigit c = false -> digitValue c = Some d -> (d <? 10) = false.
Proof.
  destruct c as [[] [] [] [] [] [] [] []]; cbn; intros H;
    try discriminate H; intros [= <-]; reflexivity.
Qed.

(** [parseInt] reads no further than the digits a text begins with. *)
Lemma parseDigits_leading s acc :
  parseDigits 10 s acc = parseDigits 10 (leadingDigits s) acc.
Proof.
  revert acc. induction s as [|c rest IH]; intros acc; [reflexivity|].
  cbn [leadingDigits]. destruct (isDigit c) eqn:E.
  - cbn [parseDigits]. rewrite (digitValue_digit c E).
    destruct (_ <? 10); [apply IH | reflexivity].
  - cbn [parseDigits]. destruct (digitValue c) as [d|] eqn:Hd; [|reflexivity].
    now rewrite (nondigit_stops c d E Hd).
Qed.

Lemma leadingDigits_digits s : allDigits (leadingDigits s) = true.
Proof.
  induction s as [|c rest IH]; cbn; [reflexivity|].
  destruct (isDigit c) eqn:E; cbn; [now rewrite E | reflexivity].
Qed.

Lemma hexDigit_value c :
  digitValue c
  = if isHexDigit c then Some (hexDigitValue c)
    else match digitValue c with
         | Some d => if d <? 16 then None else Some d
         | None => None
         end.
Proof.
  destruct c as [[] [] [] [] [] [] [] []]; reflexivity.
Qed.

Lemma hexDigit_bounds c : isHexDigit c = true -> 0 <= hexDigitValue c < 16.
Proof.
  destruct c as [[] [] [] [] [] [] [] []]; cbn; intros H;
    try discriminate H;
    (split; [apply Z.leb_le | apply Z.ltb_lt]; vm_compute; reflexivity).
Qed.

Lemma parseDigits_hex s acc :
  parseDigits 16 s acc
  = match leadingHexDigits s with
    | EmptyString => acc
    | hex => Some (default 0 acc * 16 ^ Z.of_nat (String.length hex) + hexValue hex)
    end.
Proof.
  revert acc. induction s as [|c rest IH]; intros acc; [reflexivity|].
  cbn [parseDigits leadingHexDigits]. rewrite hexDigit_value.
  destruct (isHexDigit c) eqn:E.
  - pose proof (hexDigit_bounds c E) as Hb.
    replace (hexDigitValue c <? 16) with true by (symmetry; apply Z.ltb_lt; lia).
    rewrite IH. cbn [default].
    destruct (leadingHexDigits rest) as [|d ds] eqn:El.
    + cbn [String.length hexValue]. f_equal. change (Z.of_nat 1) with 1. unfold id. lia.
    + f_equal. cbn [hexValue]. set (tl := String d ds) in *.
      change (String.length (String c tl)) with (S (String.length tl)).
      rewrite Nat2Z.inj_succ, Z.pow_succ_r by lia. unfold id. ring.
  - destruct (digitValue c) as [d|]; [|reflexivity].
    destruct (d <? 16) eqn:Ed; [reflexivity | now rewrite Ed].
Qed.

Lemma stripHexPrefix_body body :
  stripHexPrefix body
  = match afterHexPrefix body with
    | Some digits => (16, digits)
    | None => (10, body)
    end.
Proof.
  destruct body as [|c [|c' rest]]; try reflexivity.
  - destruct c as [[] [] [] [] [] [] [] []]; reflexivity.
  - destruct c as [[] [] [] [] [] [] [] []]; try reflexivity;
      destruct c' as [[] [] [] [] [] [] [] []]; reflexivity.
Qed.

Lemma parseDigits_body body :
  (let '(R, digits) := stripHexPrefix body in parseDigits R digits None)
  = bodyValue body.
Proof.
  rewrite stripHexPrefix_body. unfold bodyValue.
  destruct (afterHexPrefix body) as [digits|].
  - rewrite parseDigits_hex. destruct (leadingHexDigits digits); [reflexivity|].
    cbn [default]. f_equal; unfold id; lia.
  - rewrite parseDigits_leading.
    pose proof (leadingDigits_digits body) as Hd.
    destruct (leadingDigits body) as [|d ds]; [reflexivity|].
    now rewrite parseDigits_decimal_start.
Qed.

(** [parseInt] on a text cut for reading: the sign times what the body
    begins with, [NaN] when the body begins with no digit. *)
Lemma parseInt_cut text ws sign body :
  cutForReading text ws sign body ->
  parseInt text = match bodyValue body with
                  | Some v => Int (signValue sign * v)
                  | None => NaN
                  end.
Proof.
  intros Hcut. unfold parseInt. rewrite (cut_sign _ _ _ _ Hcut).
  pose proof (parseDigits_body body) as Hb.
  destruct (stripHexPrefix body) as [R digits]. rewrite Hb. reflexivity.
Qed.

Lemma whiteSpaces_begin w rest :
  whiteSpaces w -> w <> "" ->
  (exists c r, String.append w rest = String c r /\ isWhiteSpace c = true)
  \/ (exists c1 c2 r, String.append w rest = String c1 (String c2 r)
                      /\ isWhiteSpace2 c1 c2 = true)
  \/ (exists c1 c2 c3 r,
        String.append w rest = String c1 (String c2 (String c3 r))
        /\ isWhiteSpace3 c1 c2 c3 = true).
Proof.
  intros Hw Hne. destruct Hw as [|c r Hc _|c1 c2 r H2 _|c1 c2 c3 r H3 _];
    [congruence| | |]; rewrite ?append_cons.
  - left. eauto.
  - right. left. eauto 10.
  - right. right. exists c1, c2, c3. eauto.
Qed.

Lemma plain_start c1 r1 :
  isWhiteSpace c1 = false ->
  (forall c2 r2, r1 = String c2 r2 -> isWhiteSpace2 c1 c2 = false) ->
  (forall c2 c3 r3, r1 = String c2 (String c3 r3) -> isWhiteSpace3 c1 c2 c3 = false) ->
  ~ beginsWithWhiteSpace (String c1 r1).
Proof.
  intros H1 H2 H3 (w & rest & Heq & Hne & Hw).
  destruct (whiteSpaces_begin w rest Hw Hne)
    as [(c & r & E & Hc)|[(a & b & r & E & Hab)|(a & b & c & r & E & Habc)]];
    rewrite <- Heq in E.
  - injection E as -> _. congruence.
  - injection E as -> E. rewrite (H2 _ _ E) in Hab. discriminate Hab.
  - injection E as -> E. rewrite (H3 _ _ _ E) in Habc. discriminate Habc.
Qed.

Lemma empty_plain : ~ beginsWithWhiteSpace "".
Proof.
  intros (w & rest & Heq & Hne & _). destruct w; [congruence | discriminate Heq].
Qed.

Lemma whiteSpace_cut_total n t :
  (String.length t <= n)%nat ->
  exists ws body, t = String.append ws body /\ whiteSpaces ws
                  /\ ~ beginsWithWhiteSpace body.
Proof.
  revert t. induction n as [|n IH]; intros t Hlen.
  { destruct t; [|cbn in Hlen; lia]. exists "", "".
    split; [reflexivity|]. split; [constructor | apply empty_plain]. }
  destruct t as [|c1 r1].
  { exists "", "". split; [reflexivity|]. split; [constructor | apply empty_plain]. }
  cbn [String.length] in Hlen.
  destruct (isWhiteSpace c1) eqn:H1.
  { destruct (IH r1 ltac:(lia)) as (ws & body & -> & Hw & Hb).
    exists (String c1 ws), body. split; [reflexivity|].
    split; [now constructor | exact Hb]. }
  destruct r1 as [|c2 r2].
  { exists "", (String c1 ""). split; [reflexivity|]. split; [constructor|].
    apply plain_start; [exact H1 | discriminate | discriminate]. }
  destruct (isWhiteSpace2 c1 c2) eqn:H2.
  { cbn [String.length] in Hlen.
    destruct (IH r2 ltac:(lia)) as (ws & body & -> & Hw & Hb).
    exists (String c1 (String c2 ws)), body. split; [reflexivity|].
    split; [now apply ws_two | exact Hb]. }
  destruct r2 as [|c3 r3].
  { exists "", (String c1 (String c2 "")). split; [reflexivity|]. split; [constructor|].
    apply plain_start; [exact H1 | intros ? ? [= <- _]; exact H2 | discriminate]. }
  destruct (isWhiteSpace3 c1 c2 c3) eqn:H3.
  { cbn [String.length] in Hlen.
    destruct (IH r3 ltac:(lia)) as (ws & body & -> & Hw & Hb).
    exists (String c1 (String c2 (String c3 ws))), body.
    split; [reflexivity|]. split; [now apply ws_three | exact Hb]. }
  exists "", (String c1 (String c2 (String c3 r3))).
  split; [reflexivity|]. split; [constructor|].
  apply plain_start; [exact H1 | intros ? ? [= <- _]; exact H2
                     | intros ? ? ? [= <- <- _]; exact H3].
Qed.

(** Every text can be cut for reading. *)
Lemma cutForReading_total text : exists ws sign body, cutForReading text ws sign body.
Proof.
  destruct (whiteSpace_cut_total (String.length text) text (le_n _))
    as (ws & t & -> & Hw & Hplain).
  destruct t as [|c rest].
  { exists ws, "", "". split; [reflexivity|]. split; [exact Hw|].
    right. right. split; [reflexivity|]. split; [exact Hplain|].
    intros (r & [H|H]); discriminate H. }
  destruct (Ascii.eqb_spec c "+") as [->|Hp].
  { exists ws, "+", rest. split; [reflexivity|]. auto. }
  destruct (Ascii.eqb_spec c "-") as [->|Hm].
  { exists ws, "-", rest. split; [reflexivity|]. auto. }
  exists ws, "", (String c rest). split; [reflexivity|]. split; [exact Hw|].
  right. right. split; [reflexivity|]. split; [exact Hplain|].
  intros (r & [H|H]); injection H as -> _; congruence.
Qed.

(** ** Malformed price text *)

Lemma whiteSpace_not_digit c : isWhiteSpace c = true -> isDigit c = false.
Proof.
  destruct c as [[] [] [] [] [] [] [] []]; cbn; intros H;
    first [reflexivity | discriminate H].
Qed.

Lemma lead_not_digit c : isWhiteSpaceLead c = true -> isDigit c = false.
Proof.
  destruct c as [[] [] [] [] [] [] [] []]; cbn; intros H;
    first [reflexivity | discriminate H].
Qed.

Lemma whiteSpaces_digits ws rest :
  whiteSpaces ws -> allDigits (String.append ws rest) = true -> ws = "".
Proof.
  intros Hw. destruct Hw as [|c r Hc _|c1 c2 r H2 _|c1 c2 c3 r H3 _];
    [reflexivity| | |]; rewrite ?append_cons; cbn [allDigits]; intros H;
    apply andb_true_iff in H as [H _]; exfalso.
  - rewrite (whiteSpace_not_digit _ Hc) in H. discriminate H.
  - destruct (whiteSpace2_lead _ _ H2) as [_ Hl].
    rewrite (lead_not_digit _ Hl) in H. discriminate H.
  - destruct (whiteSpace3_lead _ _ _ H3) as (_ & Hl & _).
    rewrite (lead_not_digit _ Hl) in H. discriminate H.
Qed.

(** A text is a non-empty run of digits exactly when its cut has no white
    space, no sign, and a body that is one. *)
Lemma digits_cut text ws sign body :
  cutForReading text ws sign body ->
  (text <> "" /\ allDigits text = true)
  <-> (ws = "" /\ sign = "" /\ body <> "" /\ allDigits body = true).
Proof.
  intros (-> & Hw & Hs). split.
  - intros [Hne Hd]. pose proof (whiteSpaces_digits _ _ Hw Hd) as ->.
    rewrite append_empty in Hne, Hd.
    destruct Hs as [->|[->|(-> & _ & _)]].
    + rewrite append_cons in Hd. cbn in Hd. discriminate Hd.
    + rewrite append_cons in Hd. cbn in Hd. discriminate Hd.
    + rewrite append_empty in Hne, Hd. auto.
  - intros (-> & -> & Hne & Hd). rewrite !append_empty. auto.
Qed.

Lemma convertIntoClp_cut uf rawPrice unitPrice ws sign body :
  cutForReading (removeDots rawPrice) ws sign body ->
  convertIntoClp uf rawPrice unitPrice
  = if String.eqb unitPrice "UF" then jsMul (readValue sign body) uf
    else readValue sign body.
Proof.
  intros Hcut. unfold convertIntoClp, readValue.
  now rewrite (parseInt_cut _ _ _ _ Hcut).
Qed.

Lemma rentPrice_extracted uf u page rawPrice :
  fractionText page = Some rawPrice -> rawPrice <> "" ->
  rentPrice (houseDataOfPage uf u page)
  = Some (numberToString
            (convertIntoClp uf rawPrice (default "" (currencySymbol page)))).
Proof.
  intros Hp Hne. unfold houseDataOfPage. cbn [rentPrice]. rewrite Hp.
  cbn [default]. destruct rawPrice; [congruence | reflexivity].
Qed.

(** C3, as stated, fails: a price text that is not well formed, here one
    without a digit, does not enter the comparison as zero. *)
Lemma nonnumeric_price_not_zero :
  ~ (forall (uf : number) (u rawPrice : string) (page : HousePage),
        fractionText page = Some rawPrice -> ~ wellFormedPrice rawPrice ->
        rentOperand (houseDataOfPage uf u page) = Int 0).
Proof.
  intros H.
  assert (Hm : ~ wellFormedPrice "Consultar") by (intros [_ Hd]; discriminate Hd).
  specialize (H (Int 38000) "https://casa/2" "Consultar" Scenario.consultPage
                eq_refl Hm).
  vm_compute in H. discriminate H.
Qed.

(** C3, amended.  What the budget comparison receives for a raw price
    text, malformed or not.  When the text is empty the listing carries no
    rent and the comparison takes 0 for it.  Otherwise the text, once its
    dots are removed, is cut into leading white space, an optional sign
    and a body (every text can be cut so; it is well formed exactly when
    there is no white space, no sign, and the body is a non-empty run of
    digits).  When the body begins with no digit the amount is [NaN], and
    whenever the amount is [NaN] the listing carries the text ["NaN"], the
    rent operand of the comparison is [NaN], and the filter rejects the
    listing for every threshold.  When the body begins with digits the
    amount is their signed value, times the exchange rate under the unit
    tag ["UF"], and (as long as a double holds these integers exactly)
    that amount, not zero, is the rent operand of the comparison. *)
Theorem malformed_price_outcome (uf : number) (u rawPrice : string)
    (page : HousePage) :
  fractionText page = Some rawPrice ->
  let house := houseDataOfPage uf u page in
  let unitPrice := default "" (currencySymbol page) in
  (rawPrice = "" ->
     rentPrice house = None /\ rentOperand house = Int 0
     /\ forall maxTotal,
          budgetFilter maxTotal house
          = jsLt (jsAdd (Int 0) (feeOperand house)) (Int maxTotal))
  /\ (exists ws sign body, cutForReading (removeDots rawPrice) ws sign body)
  /\ forall ws sign body,
       cutForReading (removeDots rawPrice) ws sign body ->
       let read := readValue sign body in
       let amount := if String.eqb unitPrice "UF" then jsMul read uf else read in
       (wellFormedPrice rawPrice
        <-> ws = "" /\ sign = "" /\ body <> "" /\ allDigits body = true)
       /\ (bodyValue body = None -> amount = NaN)
       /\ (rawPrice <> "" -> amount = NaN ->
           rentPrice house = Some "NaN" /\ rentOperand house = NaN
           /\ forall maxTotal, budgetFilter maxTotal house = false)
       /\ (rawPrice <> "" ->
           exactNumber read -> (unitPrice = "UF" -> exactNumber uf) ->
           exactNumber amount ->
           rentPrice house = Some (numberToString amount)
           /\ rentOperand house = amount).
Proof.
  intros Hp house unitPrice. split; [|split].
  - intros ->.
    assert (Hr : rentPrice house = None)
      by (unfold house, houseDataOfPage; cbn [rentPrice]; rewrite Hp; reflexivity).
    assert (Ho : rentOperand house = Int 0) by (apply operands_absent, Hr).
    split; [exact Hr|]. split; [exact Ho|]. intros maxTotal.
    now rewrite budgetFilter_operands, Ho.
  - apply cutForReading_total.
  - intros ws sign body Hcut read amount.
    assert (Hamount : convertIntoClp uf rawPrice unitPrice = amount)
      by (apply convertIntoClp_cut with (ws := ws); exact Hcut).
    split; [apply digits_cut, Hcut|]. split; [|split].
    + intros Hnone. unfold amount, read, readValue. rewrite Hnone.
      destruct (String.eqb unitPrice "UF"); reflexivity.
    + intros Hne Hnan.
      assert (Hr : rentPrice house = Some "NaN").
      { unfold house. rewrite (rentPrice_extracted _ _ _ _ Hp Hne).
        fold unitPrice. rewrite Hamount, Hnan. reflexivity. }
      assert (Ho : rentOperand house = NaN)
        by (unfold rentOperand; rewrite Hr; reflexivity).
      split; [exact Hr|]. split; [exact Ho|]. intros maxTotal.
      now rewrite budgetFilter_operands, Ho.
    + intros Hne _ _ _. split.
      * unfold house. rewrite (rentPrice_extracted _ _ _ _ Hp Hne).
        fold unitPrice. now rewrite Hamount.
      * unfold house. rewrite (rentOperand_extracted _ _ _ _ Hp Hne).
        fold unitPrice. exact Hamount.
Qed.

Lemma malformed_price_outcome_witness :
  (~ wellFormedPrice "Consultar"
   /\ cutForReading (removeDots "Consultar") "" "" "Consultar"
   /\ bodyValue "Consultar" = None
   /\ budgetFilter 1000000
        (houseDataOfPage (Int 38000) "https://casa/2" Scenario.consultPage)
      = false)
  /\ (~ wellFormedPrice "12abc"
      /\ cutForReading (removeDots "12abc") "" "" "12abc"
      /\ exactNumber (readValue "" "12abc")
      /\ rentOperand (houseDataOfPage (Int 38000) "https://casa/2"
                        (Scenario.pageOf "12abc" "$" None)) = Int 12)
  /\ (~ wellFormedPrice "-3"
      /\ cutForReading (removeDots "-3") "" "-" "3"
      /\ exactNumber (readValue "-" "3")
      /\ rentOperand (houseDataOfPage (Int 38000) "https://casa/2"
                        (Scenario.pageOf "-3" "$" None)) = Int (-3)).
Proof.
  assert (Hplain : forall c r,
             isWhiteSpace c = false -> isWhiteSpaceLead c = false ->
             ~ beginsWithWhiteSpace (String c r)).
  { intros c r H1 Hl. apply plain_start; [exact H1| |].
    - intros c2 r2 _. destruct (isWhiteSpace2 c c2) eqn:H2; [|reflexivity].
      destruct (whiteSpace2_lead _ _ H2) as [_ H]. congruence.
    - intros c2 c3 r3 _. destruct (isWhiteSpace3 c c2 c3) eqn:H3; [|reflexivity].
      destruct (whiteSpace3_lead _ _ _ H3) as (_ & H & _). congruence. }
  assert (Hcut : forall c r,
             isWhiteSpace c = false -> isWhiteSpaceLead c = false ->
             c <> "+"%char -> c <> "-"%char ->
             cutForReading (String c r) "" "" (String c r)).
  { intros c r H1 Hl Hp Hm. split; [reflexivity|]. split; [constructor|].
    right. right. split; [reflexivity|]. split; [now apply Hplain|].
    intros (rest & [H|H]); injection H as -> _; congruence. }
  split; [|split].
  - assert (Hc : cutForReading (removeDots "Consultar") "" "" "Consultar")
      by (apply Hcut; [reflexivity | reflexivity | discriminate | discriminate]).
    split; [intros [_ Hd]; discriminate Hd|]. split; [exact Hc|].
    split; [reflexivity|].
    destruct (malformed_price_outcome (Int 38000) "https://casa/2" "Consultar"
                Scenario.consultPage eq_refl) as (_ & _ & Hall).
    destruct (Hall _ _ _ Hc) as (_ & Hnan & Hout & _).
    refine (proj2 (proj2 (Hout _ (Hnan eq_refl))) 1000000). discriminate.
  - assert (Hc : cutForReading (removeDots "12abc") "" "" "12abc")
      by (apply Hcut; [reflexivity | reflexivity | discriminate | discriminate]).
    assert (Hx : exactNumber (readValue "" "12abc"))
      by (unfold exactNumber, exact; vm_compute; discriminate).
    split; [intros [_ Hd]; discriminate Hd|]. split; [exact Hc|].
    split; [exact Hx|].
    destruct (malformed_price_outcome (Int 38000) "https://casa/2" "12abc"
                (Scenario.pageOf "12abc" "$" None) eq_refl) as (_ & _ & Hall).
    destruct (Hall _ _ _ Hc) as (_ & _ & _ & Hval).
    refine (proj2 (Hval _ Hx _ Hx)); discriminate.
  - assert (Hc : cutForReading (removeDots "-3") "" "-" "3")
      by (split; [reflexivity|]; split; [constructor | auto]).
    assert (Hx : exactNumber (readValue "-" "3"))
      by (unfold exactNumber, exact; vm_compute; discriminate).
    split; [intros [_ Hd]; discriminate Hd|]. split; [exact Hc|].
    split; [exact Hx|].
    destruct (malformed_price_outcome (Int 38000) "https://casa/2" "-3"
                (Scenario.pageOf "-3" "$" None) eq_refl) as (_ & _ & Hall).
    destruct (Hall _ _ _ Hc) as (_ & _ & _ & Hval).
    refine (proj2 (Hval _ Hx _ Hx)); discriminate.
Defined.

(** ** The batcher *)

Section ChunkingFacts.
Context {A : Type}.
Implicit Types (array : list A) (chunks : list (list A)).

Lemma slice_window array (k s : Z) :
  0 <= k -> 0 <= s ->
  slice array (Int k) (Int (k + s))
  = take (Z.to_nat s) (drop (Z.to_nat k) array).
Proof.
  intros Hk Hs. unfold slice, toInteger.
  set (len := Z.of_nat (length array)).
  replace (k <? 0) with false by (symmetry; apply Z.ltb_ge; lia).
  replace (k + s <? 0) with false by (symmetry; apply Z.ltb_ge; lia).
  destruct (Z.le_gt_cases k len) as [Hle|Hgt].
  - rewrite (Z.min_l k len) by lia.
    destruct (Z.le_gt_cases (k + s) len) as [Hin|Hout].
    + rewrite Z.min_l by lia. f_equal. lia.
    + rewrite Z.min_r by lia.
      rewrite !take_ge; [reflexivity | |]; rewrite length_drop; subst len; lia.
  - rewrite (Z.min_r k len), (Z.min_r (k + s) len) by lia.
    rewrite !drop_ge by (subst len; lia). now rewrite !take_nil.
Qed.

Lemma chunkLoop_exit fuel array size i chunks :
  jsLt i (Int (Z.of_nat (length array))) = false ->
  chunkLoop fuel array size i chunks = Some chunks.
Proof. intros H. destruct fuel; cbn [chunkLoop]; rewrite H; reflexivity. Qed.

(** With a step of at least one, [length array - k] units of fuel take the
    loop from index [k] to its end, and what it appends is a chunking of
    the elements from [k] on. *)
Lemma chunkLoop_spec array (s : Z) :
  1 <= s ->
  forall (fuel : nat) (k : Z) chunks,
    0 <= k -> Z.of_nat (length array) - k <= Z.of_nat fuel ->
    exists cs : list (list A),
      chunkLoop fuel array (Int s) (Int k) chunks = Some (chunks ++ cs)
      /\ concat cs = drop (Z.to_nat k) array
      /\ chunked (Z.to_nat s) cs
      /\ (Z.of_nat (length array) <= k -> cs = []).
Proof.
  intros Hs. induction fuel as [|fuel IH]; intros k chunks Hk Hfuel.
  - exists []. rewrite chunkLoop_exit by (cbn; apply Z.ltb_ge; lia).
    rewrite app_nil_r, drop_ge by lia. cbn. auto.
  - destruct (Z.le_gt_cases (Z.of_nat (length array)) k) as [Hdone|Hmore].
    + exists []. rewrite chunkLoop_exit by (cbn; apply Z.ltb_ge; lia).
      rewrite app_nil_r, drop_ge by lia. cbn. auto.
    + cbn [chunkLoop jsLt jsAdd].
      replace (k <? Z.of_nat (length array)) with true
        by (symmetry; apply Z.ltb_lt; lia).
      rewrite slice_window by lia.
      set (c := take (Z.to_nat s) (drop (Z.to_nat k) array)).
      destruct (IH (k + s) (chunks ++ [c])) as (cs & Hrun & Hcat & Hshape & Hnil);
        [lia | lia |].
      exists (c :: cs). rewrite Hrun, <- app_assoc. split; [reflexivity|].
      assert (Hlen : length c = Nat.min (Z.to_nat s) (length array - Z.to_nat k))
        by (subst c; rewrite length_take, length_drop; reflexivity).
      split; [|split].
      * cbn [concat]. rewrite Hcat. subst c.
        replace (Z.to_nat (k + s)) with (Z.to_nat k + Z.to_nat s)%nat by lia.
        rewrite <- drop_drop. apply take_drop.
      * cbn [chunked]. split; [|exact Hshape].
        destruct cs as [|c' cs'].
        -- lia.
        -- destruct (Z.le_gt_cases (Z.of_nat (length array)) (k + s)) as [Hend|Hin].
           ++ specialize (Hnil Hend). discriminate Hnil.
           ++ lia.
      * intros Habs. lia.
Qed.

(** A step of zero never leaves a non-empty array. *)
Lemma chunkLoop_zero_step fuel array chunks :
  array <> [] -> chunkLoop fuel array (Int 0) (Int 0) chunks = None.
Proof.
  intros Hne. revert chunks. induction fuel as [|fuel IH]; intros chunks;
    cbn [chunkLoop jsLt jsAdd];
    replace (0 <? Z.of_nat (length array)) with true
      by (symmetry; apply Z.ltb_lt; destruct array; [congruence | cbn; lia]).
  - reflexivity.
  - apply IH.
Qed.

Lemma chunkArray_empty fuel (size : number) :
  chunkArray fuel (@nil A) size = Some [].
Proof. unfold chunkArray. apply chunkLoop_exit. reflexivity. Qed.

Lemma chunkArray_spec array (s : Z) (fuel : nat) :
  1 <= s -> (length array <= fuel)%nat ->
  exists cs,
    chunkArray fuel array (Int s) = Some cs
    /\ concat cs = array
    /\ chunked (Z.to_nat s) cs.
Proof.
  intros Hs Hfuel.
  destruct (chunkLoop_spec array s Hs fuel 0 []) as (cs & Hrun & Hcat & Hshape & _);
    [lia | lia |].
  exists cs. split; [exact Hrun|]. split; [|exact Hshape].
  rewrite Hcat. reflexivity.
Qed.

End ChunkingFacts.

(** C8, as stated, fails: [chunkArray] has no guard.  With chunk size 0
    the empty list is accepted and chunked into nothing, and on a non-empty
    list the loop is entered and no amount of fuel lets it finish. *)
Lemma chunkArray_zero_size_not_rejected :
  chunkArray 0 (@nil string) (Int 0) = Some []
  /\ forall fuel, chunkArray fuel ["A"] (Int 0) = None.
Proof.
  split; [reflexivity|].
  intros fuel. apply chunkLoop_zero_step. discriminate.
Qed.

(** C8, amended.  [chunkArray] takes every chunk size without a guard: size
    0 on the empty list returns the empty sequence of chunks; and for every
    list and every size of at least 1 the loop terminates, [length array]
    iterations being enough. *)
Theorem chunkArray_terminates {A} (array : list A) (s : Z) (fuel : nat) :
  chunkArray fuel (@nil A) (Int 0) = Some []
  /\ (1 <= s -> (length array <= fuel)%nat ->
      exists cs, chunkArray fuel array (Int s) = Some cs).
Proof.
  split; [apply chunkArray_empty|].
  intros Hs Hfuel.
  destruct (chunkArray_spec array s fuel Hs Hfuel) as (cs & Hrun & _).
  exists cs. exact Hrun.
Qed.

Lemma chunkArray_terminates_witness :
  1 <= 2 /\ (length [10; 20; 30; 40; 50] <= 5)%nat
  /\ exists cs, chunkArray 5 [10; 20; 30; 40; 50] (Int 2) = Some cs.
Proof.
  split; [lia|]. split; [simpl; lia|].
  apply (proj2 (chunkArray_terminates [10; 20; 30; 40; 50] 2 5)); [lia | simpl; lia].
Defined.

(** ** The seen-set update *)

Lemma markAll_lookup housesData (seen : gmap string bool) (u : string) :
  markAll housesData seen !! u
  = if decide (u ∈ map seenKey housesData) then Some true else seen !! u.
Proof.
  revert seen. induction housesData as [|h rest IH]; intros seen; cbn [markAll foldl map].
  - rewrite decide_False by apply not_elem_of_nil. reflexivity.
  - fold (markAll rest (<[default "" (url h) := true]> seen)). rewrite IH.
    fold (seenKey h).
    destruct (decide (u ∈ map seenKey rest)) as [Hin|Hout].
    + rewrite decide_True by (apply elem_of_cons; auto). reflexivity.
    + destruct (decide (u = seenKey h)) as [->|Hne].
      * rewrite decide_True by (apply elem_of_cons; auto).
        apply lookup_insert_eq.
      * rewrite decide_False by (rewrite elem_of_cons; tauto).
        apply lookup_insert_ne. congruence.
Qed.

Lemma isSeen_markAll housesData seen u :
  isSeen (markAll housesData seen) u
  = bool_decide (u ∈ map seenKey housesData) || isSeen seen u.
Proof.
  unfold isSeen. rewrite markAll_lookup.
  destruct (decide (u ∈ map seenKey housesData)) as [Hin|Hout].
  - rewrite bool_decide_eq_true_2 by exact Hin. reflexivity.
  - rewrite bool_decide_eq_false_2 by exact Hout. reflexivity.
Qed.

Lemma entryGrows_refl cfg : entryGrows cfg cfg.
Proof. unfold entryGrows. auto. Qed.

Lemma entryGrows_markAll housesData cfg :
  entryGrows cfg
    {| searchLinks := searchLinks cfg;
       alreadySeenHouses := markAll housesData (alreadySeenHouses cfg);
       maxPrice := maxPrice cfg |}.
Proof.
  unfold entryGrows. cbn. repeat split.
  - intros u Hu. rewrite markAll_lookup. case_decide; [eauto | exact Hu].
  - intros u Hu. rewrite isSeen_markAll, Hu. apply orb_true_r.
Qed.

Lemma lookupChat_storeChat_ne chatId g cfg' dataStore :
  g <> chatId ->
  lookupChat g (storeChat chatId cfg' dataStore) = lookupChat g dataStore.
Proof.
  intros Hne. induction dataStore as [|[k cfg] rest IH]; cbn; [reflexivity|].
  destruct (String.eqb_spec k chatId) as [->|Hk]; cbn.
  - destruct (String.eqb_spec chatId g); [congruence | reflexivity].
  - destruct (String.eqb k g); [reflexivity | exact IH].
Qed.

Lemma lookupChat_storeChat_eq chatId cfg cfg' dataStore :
  lookupChat chatId dataStore = Some cfg ->
  lookupChat chatId (storeChat chatId cfg' dataStore) = Some cfg'.
Proof.
  induction dataStore as [|[k c] rest IH]; cbn; [discriminate|].
  destruct (String.eqb_spec k chatId) as [->|Hk]; cbn.
  - intros _. now rewrite String.eqb_refl.
  - intros H. destruct (String.eqb_spec k chatId); [congruence | auto].
Qed.

Lemma storeChat_keys chatId cfg' dataStore :
  map fst (storeChat chatId cfg' dataStore) = map fst dataStore.
Proof.
  induction dataStore as [|[k c] rest IH]; cbn; [reflexivity|].
  destruct (String.eqb k chatId); cbn; [reflexivity | now f_equal].
Qed.

Lemma storeChat_same chatId cfg dataStore :
  lookupChat chatId dataStore = Some cfg ->
  storeChat chatId cfg dataStore = dataStore.
Proof.
  induction dataStore as [|[k c] rest IH]; cbn; [reflexivity|].
  destruct (String.eqb k chatId).
  - intros [= ->]. reflexivity.
  - intros H. now rewrite IH.
Qed.

(** Every entry of the store grows under [markSeen]; entries of other
    groups are the same, and so is the order of the groups. *)
Lemma markSeen_frame chatId housesData dataStore dataStore' :
  markSeen chatId housesData dataStore = Some dataStore' ->
  map fst dataStore' = map fst dataStore
  /\ forall g cfg, lookupChat g dataStore = Some cfg ->
       exists cfg', lookupChat g dataStore' = Some cfg'
                    /\ entryGrows cfg cfg'
                    /\ (g <> chatId -> cfg' = cfg)
                    /\ (g = chatId ->
                        alreadySeenHouses cfg'
                        = markAll housesData (alreadySeenHouses cfg)).
Proof.
  unfold markSeen. destruct (lookupChat chatId dataStore) as [chatConfig|] eqn:Hc.
  - intros [= <-]. split; [apply storeChat_keys|].
    intros g cfg Hg. destruct (decide (g = chatId)) as [->|Hne].
    + rewrite Hc in Hg. injection Hg as <-.
      eexists. split; [eapply lookupChat_storeChat_eq, Hc|].
      split; [apply entryGrows_markAll|]. split; [congruence | reflexivity].
    + exists cfg. rewrite lookupChat_storeChat_ne by exact Hne.
      split; [exact Hg|]. split; [apply entryGrows_refl|].
      split; [reflexivity | congruence].
  - destruct housesData; [|discriminate]. intros [= <-]. split; [reflexivity|].
    intros g cfg Hg. exists cfg. split; [exact Hg|].
    split; [apply entryGrows_refl|]. split; [reflexivity|].
    intros ->. congruence.
Qed.

Lemma updateAlreadySeenHouses_run chatId housesData st :
  updateAlreadySeenHouses chatId housesData st
  = match markSeen chatId housesData (file st) with
    | Some dataStore' =>
        (Returned tt, {| file := dataStore';
                         trace := trace st ++ [WriteFile dataStore'] |})
    | None => (Thrown, st)
    end.
Proof.
  unfold updateAlreadySeenHouses, bind, readDataStore.
  destruct (markSeen chatId housesData (file st)); reflexivity.
Qed.

(** C10.  Whatever [updateAlreadySeenHouses] does to the persisted store,
    every group entry that was there is still there with the same search
    links and maximum price, no URL has left its seen-set and none that
    counted as seen has stopped doing so; the entries of the other groups
    are unchanged, and the groups keep their order. *)
Theorem updateAlreadySeenHouses_only_grows (chatId : string)
    (housesData : list HouseData) (st : Machine) :
  let st' := (updateAlreadySeenHouses chatId housesData st).2 in
  map fst (file st') = map fst (file st)
  /\ forall g cfg, lookupChat g (file st) = Some cfg ->
       exists cfg', lookupChat g (file st') = Some cfg'
                    /\ searchLinks cfg' = searchLinks cfg
                    /\ maxPrice cfg' = maxPrice cfg
                    /\ (forall u, is_Some (alreadySeenHouses cfg !! u) ->
                                  is_Some (alreadySeenHouses cfg' !! u))
                    /\ (forall u, isSeen (alreadySeenHouses cfg) u = true ->
                                  isSeen (alreadySeenHouses cfg') u = true)
                    /\ (g <> chatId -> cfg' = cfg).
Proof.
  cbv zeta. rewrite updateAlreadySeenHouses_run.
  destruct (markSeen chatId housesData (file st)) as [dataStore'|] eqn:Hm; cbn [snd file].
  - destruct (markSeen_frame _ _ _ _ Hm) as [Hkeys Hall]. split; [exact Hkeys|].
    intros g cfg Hg. destruct (Hall g cfg Hg) as (cfg' & Hl & (H1 & H2 & H3 & H4) & Hother & _).
    exists cfg'. auto 10.
  - split; [reflexivity|]. intros g cfg Hg. exists cfg.
    split; [exact Hg|]. auto 10.
Qed.

Lemma updateAlreadySeenHouses_only_grows_witness :
  lookupChat "-1002" Scenario.store = Some Scenario.groupB
  /\ lookupChat "-1002"
       (file (updateAlreadySeenHouses "-1001"
                [Scenario.listing "https://casa/1" 400000 None]
                {| file := Scenario.store; trace := [] |}).2)
     = Some Scenario.groupB.
Proof.
  split; [reflexivity|].
  destruct (proj2 (updateAlreadySeenHouses_only_grows "-1001"
                     [Scenario.listing "https://casa/1" 400000 None]
                     {| file := Scenario.store; trace := [] |})
                  "-1002" Scenario.groupB eq_refl)
    as (cfg' & Hl & _ & _ & _ & _ & Hother).
  rewrite Hl. f_equal. apply Hother. discriminate.
Defined.

(** ** Runs of the pipeline in closed form *)

Lemma log_nil st : log st [] = st.
Proof. destruct st. unfold log. cbn. now rewrite app_nil_r. Qed.

Lemma log_log st evs evs' : log (log st evs) evs' = log st (evs ++ evs').
Proof. unfold log. cbn. now rewrite app_assoc. Qed.

Section Runs.
Variable W : World.

Lemma sendMessageToTelegram_run chatId chunk st :
  sendMessageToTelegram W chatId chunk st
  = match chunk with
    | [] => (Returned tt, st)
    | _ :: _ =>
        (if axiosPost W (trace st) chatId chunk then Returned tt else Thrown,
         log st [Post chatId chunk])
    end.
Proof.
  destruct chunk as [|h rest]; [reflexivity|].
  unfold sendMessageToTelegram, bind, history, emit. cbn.
  destruct (axiosPost W (trace st) chatId (h :: rest)); reflexivity.
Qed.

Lemma retrieveHouseCardInfo_run houseCard seen st :
  retrieveHouseCardInfo W houseCard seen st
  = (Returned (cardResult W seen houseCard), log st (cardEvents seen houseCard)).
Proof.
  unfold retrieveHouseCardInfo, cardResult, cardEvents, cardSkipped, cardUrl.
  destruct (_ || _).
  - now rewrite log_nil.
  - unfold bind, emit. cbn. destruct (housePage W _); reflexivity.
Qed.

Lemma cardsLoop_run cards seen housesData st :
  cardsLoop W cards seen housesData st
  = (Returned (housesData ++ pageExtracted W seen cards),
     log st (pageEvents seen cards)).
Proof.
  revert housesData st. induction cards as [|card rest IH]; intros housesData st.
  - cbn. now rewrite app_nil_r, log_nil.
  - cbn [cardsLoop]. unfold bind at 1. rewrite retrieveHouseCardInfo_run.
    change (pageExtracted W seen (card :: rest))
      with (match cardResult W seen card with
            | Some h => h :: pageExtracted W seen rest
            | None => pageExtracted W seen rest
            end).
    change (pageEvents seen (card :: rest))
      with (cardEvents seen card ++ pageEvents seen rest).
    destruct (cardResult W seen card) as [h|]; rewrite IH, log_log.
    + now rewrite <- app_assoc.
    + reflexivity.
Qed.

Lemma retrieveHousesDataFromFilterLink_run link searchConfig st :
  retrieveHousesDataFromFilterLink W link (alreadySeenHouses searchConfig)
    searchConfig st
  = match searchPage W link with
    | None => (Thrown, log st [GotoSearch link])
    | Some cards =>
        (Returned (accepted searchConfig
                     (pageExtracted W (alreadySeenHouses searchConfig) cards)),
         log st (GotoSearch link
                 :: pageEvents (alreadySeenHouses searchConfig) cards))
    end.
Proof.
  unfold retrieveHousesDataFromFilterLink, bind at 1, emit.
  destruct (searchPage W link) as [cards|]; [|reflexivity].
  unfold bind. rewrite cardsLoop_run. unfold ret, log. cbn.
  now rewrite <- app_assoc.
Qed.

Lemma linksLoop_run links searchConfig housesData st :
  linksLoop W links searchConfig housesData st
  = (match linksResult W searchConfig links with
     | Some found => Returned (housesData ++ found)
     | None => Thrown
     end,
     log st (linksEvents W searchConfig links)).
Proof.
  revert housesData st. induction links as [|link rest IH]; intros housesData st.
  - cbn. now rewrite app_nil_r, log_nil.
  - cbn [linksLoop linksResult linksEvents]. unfold bind.
    rewrite retrieveHousesDataFromFilterLink_run.
    destruct (searchPage W link) as [cards|]; [|reflexivity].
    rewrite IH, log_log. cbn [app].
    destruct (linksResult W searchConfig rest); cbn; [|reflexivity].
    now rewrite <- app_assoc.
Qed.

Lemma forEach_send_run chatId chunks st :
  forEach chunks (sendMessageToTelegram W chatId) st
  = (if (dispatch W chatId chunks (trace st)).1 then Returned tt else Thrown,
     log st (dispatch W chatId chunks (trace st)).2).
Proof.
  revert st. induction chunks as [|chunk rest IH]; intros st.
  - cbn. now rewrite log_nil.
  - cbn [forEach]. unfold bind. rewrite sendMessageToTelegram_run.
    destruct chunk as [|h tl]; [exact (IH st)|].
    cbn [dispatch]. destruct (axiosPost W (trace st) chatId (h :: tl)); [|reflexivity].
    rewrite IH, log_log. reflexivity.
Qed.

Lemma processSearchHousesByChat_run fuel chatId searchConfig st :
  processSearchHousesByChat W fuel chatId searchConfig st
  = let st1 := log st (linksEvents W searchConfig (searchLinks searchConfig)) in
    match linksResult W searchConfig (searchLinks searchConfig) with
    | None => (Thrown, st1)
    | Some found =>
        match chunkArray fuel found (CHUNK_SIZE W) with
        | None => (Diverged, st1)
        | Some chunks =>
            let sent := dispatch W chatId chunks (trace st1) in
            if sent.1 then updateAlreadySeenHouses chatId found (log st1 sent.2)
            else (Thrown, log st1 sent.2)
        end
    end.
Proof.
  unfold processSearchHousesByChat, bind at 1. rewrite linksLoop_run. cbv zeta.
  destruct (linksResult W searchConfig (searchLinks searchConfig)) as [found|];
    [|reflexivity].
  cbn [app]. destruct (chunkArray fuel found (CHUNK_SIZE W)) as [chunks|];
    [|reflexivity].
  unfold bind. rewrite forEach_send_run.
  destruct (dispatch W chatId chunks _).1; reflexivity.
Qed.

End Runs.

(** ** Navigation events *)

Section Navigation.
Variable W : World.

Lemma cardEvents_unseen seen card : Forall (opensOnlyUnseen seen) (cardEvents seen card).
Proof.
  unfold cardEvents, cardSkipped.
  destruct (isSeen seen (cardUrl card)) eqn:E.
  - rewrite orb_true_r. constructor.
  - destruct (String.eqb _ _); cbn; repeat constructor. exact E.
Qed.

Lemma pageEvents_unseen seen cards : Forall (opensOnlyUnseen seen) (pageEvents seen cards).
Proof.
  unfold pageEvents. induction cards as [|card rest IH]; cbn [map concat].
  - constructor.
  - apply Forall_app. split; [apply cardEvents_unseen | exact IH].
Qed.

Lemma linksEvents_unseen cfg links :
  Forall (opensOnlyUnseen (alreadySeenHouses cfg)) (linksEvents W cfg links).
Proof.
  induction links as [|link rest IH]; cbn [linksEvents]; constructor; [exact I|].
  destruct (searchPage W link); [|constructor].
  apply Forall_app. split; [apply pageEvents_unseen | exact IH].
Qed.

Lemma dispatch_posts chatId chunks tr :
  Forall (fun e => exists chunk, e = Post chatId chunk) (dispatch W chatId chunks tr).2.
Proof.
  revert tr. induction chunks as [|chunk rest IH]; intros tr; cbn [dispatch].
  - constructor.
  - destruct chunk as [|h tl]; [apply IH|].
    destruct (axiosPost W tr chatId (h :: tl)); cbn [snd].
    + constructor; [eauto | apply IH].
    + repeat constructor. eauto.
Qed.

(** The events of one group run: the navigation of the collection phase,
    then posts, then at most one write of the store. *)
Lemma processSearchHousesByChat_events fuel chatId cfg st :
  exists posts tail,
    trace (processSearchHousesByChat W fuel chatId cfg st).2
    = trace st ++ linksEvents W cfg (searchLinks cfg) ++ posts ++ tail
    /\ Forall (fun e => exists chunk, e = Post chatId chunk) posts
    /\ (tail = [] \/ exists dataStore, tail = [WriteFile dataStore]).
Proof.
  rewrite processSearchHousesByChat_run. cbv zeta.
  destruct (linksResult W cfg (searchLinks cfg)) as [found|].
  2:{ exists [], []. cbn. rewrite app_nil_r. auto. }
  destruct (chunkArray fuel found (CHUNK_SIZE W)) as [chunks|].
  2:{ exists [], []. cbn. rewrite app_nil_r. auto. }
  set (tr1 := trace (log st (linksEvents W cfg (searchLinks cfg)))).
  pose proof (dispatch_posts chatId chunks tr1) as Hposts.
  destruct (dispatch W chatId chunks tr1) as [ok posts]. cbn [fst snd] in *.
  destruct ok.
  - rewrite updateAlreadySeenHouses_run. cbn [file log].
    destruct (markSeen chatId found (file st)) as [dataStore'|].
    + exists posts, [WriteFile dataStore']. cbn.
      rewrite <- !app_assoc. eauto.
    + exists posts, []. cbn. rewrite app_nil_r, <- !app_assoc. auto.
  - exists posts, []. cbn. rewrite app_nil_r, <- !app_assoc. auto.
Qed.

End Navigation.

(** C6.  A candidate whose fragment-stripped URL counts as seen makes
    [retrieveHouseCardInfo] return [null] with the trace untouched, so the
    test precedes any navigation; and among all the events of a group run,
    a detail page is opened only for URLs that do not count as seen in the
    group's seen-set. *)
Theorem seen_candidate_never_opened (W : World) (fuel : nat) (chatId : string)
    (searchConfig : ChatConfig) (st : Machine) :
  (forall houseCard st0,
      isSeen (alreadySeenHouses searchConfig) (cardUrl houseCard) = true ->
      retrieveHouseCardInfo W houseCard (alreadySeenHouses searchConfig) st0
      = (Returned None, st0))
  /\ exists events,
       trace (processSearchHousesByChat W fuel chatId searchConfig st).2
       = trace st ++ events
       /\ forall u, isSeen (alreadySeenHouses searchConfig) u = true ->
                    GotoDetail u ∉ events.
Proof.
  split.
  - intros houseCard st0 Hseen. rewrite retrieveHouseCardInfo_run.
    unfold cardResult, cardEvents, cardSkipped. rewrite Hseen, orb_true_r.
    now rewrite log_nil.
  - destruct (processSearchHousesByChat_events W fuel chatId searchConfig st)
      as (posts & tail & Htrace & Hposts & Htail).
    eexists. split; [exact Htrace|].
    intros u Hseen Hin.
    apply elem_of_app in Hin as [Hin|Hin].
    + pose proof (linksEvents_unseen W searchConfig (searchLinks searchConfig)) as Hnav.
      rewrite Forall_forall in Hnav. apply Hnav in Hin. cbn in Hin. congruence.
    + apply elem_of_app in Hin as [Hin|Hin].
      * rewrite Forall_forall in Hposts. destruct (Hposts _ Hin) as [chunk Heq].
        discriminate Heq.
      * destruct Htail as [->|[dataStore ->]].
        -- apply not_elem_of_nil in Hin. exact Hin.
        -- apply list_elem_of_singleton in Hin. discriminate Hin.
Qed.

Lemma seen_candidate_never_opened_witness :
  isSeen (alreadySeenHouses Scenario.groupA) (cardUrl (Some "https://casa/0#fotos")) = true
  /\ retrieveHouseCardInfo Scenario.portal (Some "https://casa/0#fotos")
       (alreadySeenHouses Scenario.groupA) Scenario.start
     = (Returned None, Scenario.start).
Proof.
  assert (H : isSeen (alreadySeenHouses Scenario.groupA)
                (cardUrl (Some "https://casa/0#fotos")) = true)
    by (vm_compute; reflexivity).
  split; [exact H|].
  exact (proj1 (seen_candidate_never_opened Scenario.portal 0 "-1001"
                  Scenario.groupA Scenario.start)
               (Some "https://casa/0#fotos") Scenario.start H).
Defined.

(** ** A run over a fully seen group *)

Section Idle.
Variable W : World.

Lemma page_all_seen seen cards :
  (forall card, card ∈ cards -> cardUrl card <> "" ->
                isSeen seen (cardUrl card) = true) ->
  pageExtracted W seen cards = [] /\ pageEvents seen cards = [].
Proof.
  unfold pageExtracted, pageEvents.
  induction cards as [|card rest IH]; intros Hall; [split; reflexivity|].
  assert (Hskip : cardSkipped seen card = true).
  { unfold cardSkipped. destruct (String.eqb_spec (cardUrl card) ""); [reflexivity|].
    rewrite Hall; [reflexivity | apply elem_of_cons; auto | assumption]. }
  destruct IH as [IH1 IH2].
  { intros c Hc. apply Hall. apply elem_of_cons. auto. }
  cbn [omap list_omap map concat]. unfold cardResult, cardEvents.
  rewrite Hskip. cbn. split; assumption.
Qed.

Lemma links_all_seen cfg links :
  (forall link, link ∈ links ->
     exists cards, searchPage W link = Some cards
       /\ forall card, card ∈ cards -> cardUrl card <> "" ->
                       isSeen (alreadySeenHouses cfg) (cardUrl card) = true) ->
  linksResult W cfg links = Some []
  /\ linksEvents W cfg links = map GotoSearch links.
Proof.
  induction links as [|link rest IH]; intros Hall; [split; reflexivity|].
  destruct (Hall link) as (cards & Hpage & Hcards); [apply elem_of_cons; auto|].
  destruct IH as [IH1 IH2].
  { intros l Hl. apply Hall. apply elem_of_cons. auto. }
  destruct (page_all_seen _ _ Hcards) as [Hx He].
  cbn [linksResult linksEvents map]. rewrite Hpage, Hx, He, IH1, IH2.
  split; reflexivity.
Qed.

Lemma markSeen_nil chatId dataStore : markSeen chatId [] dataStore = Some dataStore.
Proof.
  unfold markSeen. destruct (lookupChat chatId dataStore) as [cfg|] eqn:E;
    [|reflexivity].
  f_equal. cbn [markAll foldl]. rewrite <- (storeChat_same _ _ _ E) at 2.
  destruct cfg; reflexivity.
Qed.

End Idle.

(** C5.  When every search page of the group loads and every candidate
    URL on it already counts as seen, the collection phase returns no
    listing and opens no detail page, the run posts nothing, and the store
    it writes back is the store it read: the persisted state is unchanged. *)
Theorem fully_seen_run_is_idle (W : World) (fuel : nat) (chatId : string)
    (searchConfig : ChatConfig) (st : Machine) :
  (forall link, link ∈ searchLinks searchConfig ->
     exists cards, searchPage W link = Some cards
       /\ forall card, card ∈ cards -> cardUrl card <> "" ->
            isSeen (alreadySeenHouses searchConfig) (cardUrl card) = true) ->
  linksLoop W (searchLinks searchConfig) searchConfig [] st
  = (Returned [], log st (map GotoSearch (searchLinks searchConfig)))
  /\ processSearchHousesByChat W fuel chatId searchConfig st
     = (Returned tt,
        log st (map GotoSearch (searchLinks searchConfig) ++ [WriteFile (file st)]))
  /\ file (processSearchHousesByChat W fuel chatId searchConfig st).2 = file st.
Proof.
  intros Hall. destruct (links_all_seen W _ _ Hall) as [Hres Hev].
  assert (Hrun : processSearchHousesByChat W fuel chatId searchConfig st
                 = (Returned tt,
                    log st (map GotoSearch (searchLinks searchConfig)
                            ++ [WriteFile (file st)]))).
  { rewrite processSearchHousesByChat_run. cbv zeta. rewrite Hres, Hev.
    rewrite chunkArray_empty. cbn [dispatch fst snd].
    rewrite log_nil, updateAlreadySeenHouses_run. cbn [file log].
    rewrite markSeen_nil. unfold log. cbn. now rewrite <- app_assoc. }
  split; [|split].
  - rewrite linksLoop_run, Hres, Hev. reflexivity.
  - exact Hrun.
  - rewrite Hrun. reflexivity.
Qed.

Lemma fully_seen_run_is_idle_witness :
  file (processSearchHousesByChat Scenario.portal 0 "-1001" Scenario.groupA'
          Scenario.start).2 = Scenario.store.
Proof.
  refine (proj2 (proj2 (fully_seen_run_is_idle Scenario.portal 0 "-1001"
                          Scenario.groupA' Scenario.start _))).
  intros link Hl. apply list_elem_of_singleton in Hl as ->.
  eexists. split; [reflexivity|].
  intros card Hc _.
  apply elem_of_cons in Hc as [->|Hc]; [vm_compute; reflexivity|].
  apply list_elem_of_singleton in Hc as ->. vm_compute. reflexivity.
Defined.

(** ** What reaches the seen-set *)

Section SeenScope.
Variable W : World.

Lemma linksResult_elem cfg links found :
  linksResult W cfg links = Some found ->
  forall h, h ∈ found <->
    (exists link cards,
        link ∈ links /\ searchPage W link = Some cards
        /\ h ∈ pageExtracted W (alreadySeenHouses cfg) cards)
    /\ budgetFilter (maxPrice cfg) h = true.
Proof.
  revert found. induction links as [|link rest IH]; intros found; cbn [linksResult].
  - intros [= <-] h. split.
    + intros Hin. apply not_elem_of_nil in Hin. contradiction.
    + intros [(l & cards & Hl & _) _]. apply not_elem_of_nil in Hl. contradiction.
  - destruct (searchPage W link) as [cards|] eqn:Hpage; [|discriminate].
    destruct (linksResult W cfg rest) as [more|]; [|discriminate].
    cbn. intros [= <-] h. rewrite elem_of_app, (IH more eq_refl h).
    unfold accepted. rewrite list_elem_of_filter. split.
    + intros [[Hb Hin]|[(l & cs & Hl & Hs & Hin) Hb]].
      * split; [|exact Hb]. exists link, cards.
        split; [apply elem_of_cons; auto | auto].
      * split; [|exact Hb]. exists l, cs.
        split; [apply elem_of_cons; auto | auto].
    + intros [(l & cs & Hl & Hs & Hin) Hb].
      apply elem_of_cons in Hl as [->|Hl].
      * left. rewrite Hpage in Hs. injection Hs as <-. auto.
      * right. split; [|exact Hb]. exists l, cs. auto.
Qed.

Lemma unseen_card_is_fetched seen card st :
  cardUrl card <> "" -> isSeen seen (cardUrl card) = false ->
  retrieveHouseCardInfo W card seen st
  = (Returned (houseDataOfPage (UF_VALUE W) (cardUrl card)
                 <$> housePage W (cardUrl card)),
     log st [GotoDetail (cardUrl card)]).
Proof.
  intros Hne Hunseen. rewrite retrieveHouseCardInfo_run.
  unfold cardResult, cardEvents, cardSkipped. rewrite Hunseen.
  destruct (String.eqb_spec (cardUrl card) ""); [contradiction | reflexivity].
Qed.

End SeenScope.

(** C4.  A group run that does not return leaves the persisted store as
    it was.  A run that returns has handed to the seen-set update exactly
    the listings that were extracted from the group's result pages and
    passed the budget filter; a URL counts as seen afterwards exactly when
    it did before or belongs to one of those listings; and a URL that
    still does not count as seen is fetched again when a card of the next
    run carries it. *)
Theorem rejected_listings_not_marked (W : World) (fuel : nat) (chatId : string)
    (searchConfig : ChatConfig) (st : Machine) :
  let r := processSearchHousesByChat W fuel chatId searchConfig st in
  (r.1 <> Returned tt -> file r.2 = file st)
  /\ (r.1 = Returned tt ->
      exists found,
        markSeen chatId found (file st) = Some (file r.2)
        /\ (forall h, h ∈ found <->
              extractedOn W searchConfig h
              /\ budgetFilter (maxPrice searchConfig) h = true)
        /\ forall stored, lookupChat chatId (file st) = Some stored ->
             exists stored',
               lookupChat chatId (file r.2) = Some stored'
               /\ (forall u, isSeen (alreadySeenHouses stored') u = true <->
                     isSeen (alreadySeenHouses stored) u = true
                     \/ exists h, h ∈ found /\ seenKey h = u)
               /\ (forall u (W' : World) card st',
                     isSeen (alreadySeenHouses stored') u = false ->
                     cardUrl card = u -> u <> "" ->
                     retrieveHouseCardInfo W' card (alreadySeenHouses stored') st'
                     = (Returned (houseDataOfPage (UF_VALUE W') u <$> housePage W' u),
                        log st' [GotoDetail u]))).
Proof.
  cbv zeta. rewrite processSearchHousesByChat_run. cbv zeta.
  destruct (linksResult W searchConfig (searchLinks searchConfig)) as [found|] eqn:Hres;
    [|split; [reflexivity | discriminate]].
  destruct (chunkArray fuel found (CHUNK_SIZE W)) as [chunks|];
    [|split; [reflexivity | discriminate]].
  destruct (dispatch W chatId chunks _) as [ok posts]. cbn [fst snd].
  destruct ok; [|split; [reflexivity | discriminate]].
  rewrite updateAlreadySeenHouses_run. cbn [file log].
  destruct (markSeen chatId found (file st)) as [dataStore'|] eqn:Hmark;
    [|split; [reflexivity | discriminate]].
  cbn [fst snd file]. split; [congruence|]. intros _.
  exists found. split; [exact Hmark|]. split.
  - intros h. unfold extractedOn. apply linksResult_elem, Hres.
  - intros stored Hstored.
    destruct (markSeen_frame _ _ _ _ Hmark) as [_ Hall].
    destruct (Hall chatId stored Hstored) as (stored' & Hl & _ & _ & Hsame).
    specialize (Hsame eq_refl). exists stored'. split; [exact Hl|]. split.
    + intros u. rewrite Hsame, isSeen_markAll, orb_true_iff, bool_decide_eq_true.
      rewrite list_elem_of_fmap. split.
      * intros [(h & -> & Hin)|Hold]; [right; eauto | left; exact Hold].
      * intros [Hold|(h & Hin & <-)]; [right; exact Hold | left; eauto].
    + intros u W' card st' Hunseen <- Hne. apply unseen_card_is_fetched; assumption.
Qed.

Lemma rejected_listings_not_marked_witness :
  let r := processSearchHousesByChat Scenario.reliable 5 "-1002"
             Scenario.groupTight Scenario.startTight in
  r.1 = Returned tt
  /\ extractedOn Scenario.reliable Scenario.groupTight Scenario.casa3
  /\ budgetFilter 500000 Scenario.casa3 = false
  /\ exists found stored',
       markSeen "-1002" found Scenario.storeTight = Some (file r.2)
       /\ (Scenario.casa3 ∉ found)
       /\ Scenario.casa4 ∈ found
       /\ lookupChat "-1002" (file r.2) = Some stored'
       /\ isSeen (alreadySeenHouses stored') "https://casa/4" = true
       /\ isSeen (alreadySeenHouses stored') "https://casa/3" = false
       /\ retrieveHouseCardInfo Scenario.reliable (Some "https://casa/3")
            (alreadySeenHouses stored') r.2
          = (Returned (Some Scenario.casa3),
             log r.2 [GotoDetail "https://casa/3"]).
Proof.
  cbv zeta.
  assert (Hret : (processSearchHousesByChat Scenario.reliable 5 "-1002"
                    Scenario.groupTight Scenario.startTight).1 = Returned tt)
    by (vm_compute; reflexivity).
  assert (Hpage : forall h,
             extractedOn Scenario.reliable Scenario.groupTight h <->
             h = Scenario.casa3 \/ h = Scenario.casa4 \/ h = Scenario.casa5).
  { intros h. split.
    - intros (link & cards & Hl & Hs & Hin).
      apply list_elem_of_singleton in Hl as ->.
      injection Hs as <-. revert Hin.
      change (h ∈ [Scenario.casa3; Scenario.casa4; Scenario.casa5] ->
              h = Scenario.casa3 \/ h = Scenario.casa4 \/ h = Scenario.casa5).
      rewrite !elem_of_cons. intros [H|[H|[H|H]]]; auto.
      apply not_elem_of_nil in H. contradiction.
    - intros H. exists "https://portal/b",
        [Some "https://casa/3"; Some "https://casa/4"; None; Some "https://casa/5"].
      split; [apply list_elem_of_singleton; reflexivity|]. split; [reflexivity|].
      change (h ∈ [Scenario.casa3; Scenario.casa4; Scenario.casa5]).
      rewrite !elem_of_cons. tauto. }
  assert (H3 : budgetFilter 500000 Scenario.casa3 = false) by (vm_compute; reflexivity).
  assert (H4 : budgetFilter 500000 Scenario.casa4 = true) by (vm_compute; reflexivity).
  assert (H5 : budgetFilter 500000 Scenario.casa5 = false) by (vm_compute; reflexivity).
  split; [exact Hret|]. split; [apply Hpage; auto|]. split; [exact H3|].
  destruct (proj2 (rejected_listings_not_marked Scenario.reliable 5 "-1002"
                     Scenario.groupTight Scenario.startTight) Hret)
    as (found & Hmark & Hiff & Hstore).
  destruct (Hstore Scenario.groupTight eq_refl) as (stored' & Hl & Hseen & Hagain).
  assert (Hnot : Scenario.casa3 ∉ found).
  { intros Hin. apply Hiff in Hin as [_ Hb].
    change (budgetFilter 500000 Scenario.casa3 = true) in Hb. congruence. }
  assert (Hin4 : Scenario.casa4 ∈ found)
    by (apply Hiff; split; [apply Hpage; auto | exact H4]).
  assert (Hs4 : isSeen (alreadySeenHouses stored') "https://casa/4" = true)
    by (apply Hseen; right; exists Scenario.casa4; split; [exact Hin4 | reflexivity]).
  assert (Hs3 : isSeen (alreadySeenHouses stored') "https://casa/3" = false).
  { destruct (isSeen (alreadySeenHouses stored') "https://casa/3") eqn:E;
      [exfalso | reflexivity].
    apply Hseen in E as [Hold|(h & Hin & Hkey)]; [discriminate Hold|].
    apply Hiff in Hin as [Hex Hb]. change (budgetFilter 500000 h = true) in Hb.
    apply Hpage in Hex as [-> | [-> | ->]];
      [congruence | discriminate Hkey | congruence]. }
  exists found, stored'. repeat (split; [assumption|]).
  apply (Hagain "https://casa/3" Scenario.reliable (Some "https://casa/3"));
    [exact Hs3 | reflexivity | discriminate].
Defined.

(** ** Failing deliveries *)

Lemma forEach_app {A} (xs ys : list A) (body : A -> M unit) st :
  forEach (xs ++ ys) body st
  = match forEach xs body st with
    | (Returned _, st') => forEach ys body st'
    | other => other
    end.
Proof.
  revert st. induction xs as [|x rest IH]; intros st; [reflexivity|].
  cbn [app forEach]. unfold bind.
  destruct (body x st) as [[[]| |] st1]; [apply IH | reflexivity | reflexivity].
Qed.

(** C7.  Let the groups before [chatId] have been processed to the end,
    let the collection for [chatId] have returned, and let the batches
    [before] have been delivered when the delivery of [chunk] fails.  Then
    the group run throws right after that post, and so does [main]: the
    failed post is the last event of the run, so none of the batches
    [after] is sent, the group's seen-set update does not happen and the
    groups [later] are not processed, while the persisted store is the one
    the earlier groups left. *)
Theorem delivery_failure_stops_the_run (W : World) (fuel : nat)
    (earlier later : DataStore) (chatId : string) (searchConfig : ChatConfig)
    (st0 st st1 st2 : Machine) (found : list HouseData)
    (before after : list (list HouseData)) (chunk : list HouseData) :
  file st0 = earlier ++ (chatId, searchConfig) :: later ->
  processGroups W fuel earlier st0 = (Returned tt, st) ->
  linksLoop W (searchLinks searchConfig) searchConfig [] st = (Returned found, st1) ->
  chunkArray fuel found (CHUNK_SIZE W) = Some (before ++ chunk :: after) ->
  forEach before (sendMessageToTelegram W chatId) st1 = (Returned tt, st2) ->
  chunk <> [] ->
  axiosPost W (trace st2) chatId chunk = false ->
  processSearchHousesByChat W fuel chatId searchConfig st
  = (Thrown, log st2 [Post chatId chunk])
  /\ main W fuel st0 = (Thrown, log st2 [Post chatId chunk])
  /\ file (log st2 [Post chatId chunk]) = file st.
Proof.
  intros Hfile Hearlier Hlinks Hchunks Hbefore Hne Hfail.
  assert (Hsend : forEach (before ++ chunk :: after)
                    (sendMessageToTelegram W chatId) st1
                  = (Thrown, log st2 [Post chatId chunk])).
  { rewrite forEach_app, Hbefore. cbn [forEach]. unfold bind.
    rewrite sendMessageToTelegram_run.
    destruct chunk; [congruence|]. rewrite Hfail. reflexivity. }
  assert (Hrun : processSearchHousesByChat W fuel chatId searchConfig st
                 = (Thrown, log st2 [Post chatId chunk])).
  { unfold processSearchHousesByChat, bind at 1. rewrite Hlinks, Hchunks.
    unfold bind. rewrite Hsend. reflexivity. }
  split; [exact Hrun|]. split.
  - unfold main, bind, readDataStore, processGroups. rewrite Hfile.
    rewrite forEach_app. fold (processGroups W fuel earlier st0).
    rewrite Hearlier. cbn [forEach fst snd]. unfold bind. rewrite Hrun. reflexivity.
  - rewrite forEach_send_run in Hbefore. rewrite linksLoop_run in Hlinks.
    injection Hbefore as _ <-. injection Hlinks as _ <-. reflexivity.
Qed.

Lemma delivery_failure_stops_the_run_witness :
  let afterA := (processGroups Scenario.portal 5 [("-1001", Scenario.groupA)]
                   Scenario.start).2 in
  let failed := log (log afterA (Scenario.visitsB ++ [Post "-1002" [Scenario.casa3]]))
                    [Post "-1002" [Scenario.casa4]] in
  main Scenario.portal 5 Scenario.start = (Thrown, failed)
  /\ file failed = [("-1001", Scenario.groupA'); ("-1002", Scenario.groupB)].
Proof.
  cbv zeta.
  set (afterA := (processGroups Scenario.portal 5 [("-1001", Scenario.groupA)]
                    Scenario.start).2).
  destruct (delivery_failure_stops_the_run Scenario.portal 5
              [("-1001", Scenario.groupA)] [] "-1002" Scenario.groupB
              Scenario.start afterA (log afterA Scenario.visitsB)
              (log afterA (Scenario.visitsB ++ [Post "-1002" [Scenario.casa3]]))
              [Scenario.casa3; Scenario.casa4; Scenario.casa5]
              [[Scenario.casa3]] [[Scenario.casa5]] [Scenario.casa4])
    as (_ & Hmain & Hfile).
  - reflexivity.
  - vm_compute. reflexivity.
  - vm_compute. reflexivity.
  - vm_compute. reflexivity.
  - vm_compute. reflexivity.
  - discriminate.
  - vm_compute. reflexivity.
  - split; [exact Hmain|]. rewrite Hfile. vm_compute. reflexivity.
Defined.

(** ** Batches and deliveries *)

(** C9.  For every list and every chunk size of at least 1, with fuel for
    [length array] iterations, [chunkArray] returns chunks whose
    concatenation is the list itself, each of exactly [size] elements
    except the last, which has between 1 and [size].  And with chunk size 1,
    deliveries that go through and a collection phase that returned the
    three listings [a; b; c], the batches are [[a]], [[b]], [[c]]; the group
    run posts them one by one in that order and goes on to the seen-set
    update, so that after the collection its trace holds exactly these three
    posts, followed by at most the write of the store. *)
Theorem chunks_partition_and_deliver {A} (array : list A) (s : Z) (fuel : nat)
    (W : World) (chatId : string) (searchConfig : ChatConfig)
    (a b c : HouseData) (st st1 : Machine) :
  (1 <= s -> (length array <= fuel)%nat ->
   exists cs, chunkArray fuel array (Int s) = Some cs
              /\ concat cs = array
              /\ chunked (Z.to_nat s) cs)
  /\ (CHUNK_SIZE W = Int 1 -> (3 <= fuel)%nat ->
      (forall tr id dataMessage, axiosPost W tr id dataMessage = true) ->
      linksLoop W (searchLinks searchConfig) searchConfig [] st
      = (Returned [a; b; c], st1) ->
      chunkArray fuel [a; b; c] (CHUNK_SIZE W) = Some [[a]; [b]; [c]]
      /\ processSearchHousesByChat W fuel chatId searchConfig st
         = updateAlreadySeenHouses chatId [a; b; c]
             (log st1 [Post chatId [a]; Post chatId [b]; Post chatId [c]])
      /\ exists tail,
           trace (processSearchHousesByChat W fuel chatId searchConfig st).2
           = trace st1
             ++ [Post chatId [a]; Post chatId [b]; Post chatId [c]] ++ tail
           /\ (tail = [] \/ exists dataStore, tail = [WriteFile dataStore])).
Proof.
  split; [apply chunkArray_spec|].
  intros Hsize Hfuel Hpost Hlinks.
  assert (Hchunks : chunkArray fuel [a; b; c] (CHUNK_SIZE W) = Some [[a]; [b]; [c]]).
  { rewrite Hsize. destruct fuel as [|[|[|fuel]]]; [lia | lia | lia |].
    unfold chunkArray. cbn. destruct fuel; reflexivity. }
  assert (Hrun : processSearchHousesByChat W fuel chatId searchConfig st
                 = updateAlreadySeenHouses chatId [a; b; c]
                     (log st1 [Post chatId [a]; Post chatId [b]; Post chatId [c]])).
  { unfold processSearchHousesByChat, bind at 1. rewrite Hlinks, Hchunks.
    unfold bind at 1. rewrite forEach_send_run. cbn [dispatch].
    rewrite !Hpost. cbn [fst snd]. reflexivity. }
  split; [exact Hchunks|]. split; [exact Hrun|].
  rewrite Hrun, updateAlreadySeenHouses_run. cbn [file log].
  destruct (markSeen chatId [a; b; c] (file st1)) as [dataStore'|].
  - exists [WriteFile dataStore']. cbn [snd trace log].
    rewrite <- app_assoc. split; [reflexivity | eauto].
  - exists []. cbn [snd trace log]. split; [reflexivity | auto].
Qed.

Lemma chunks_partition_and_deliver_witness :
  (exists cs, chunkArray 5 [10; 20; 30; 40; 50] (Int 2) = Some cs
              /\ concat cs = [10; 20; 30; 40; 50]
              /\ chunked 2 cs)
  /\ processSearchHousesByChat Scenario.reliable 5 "-1002" Scenario.groupB
       Scenario.start
     = updateAlreadySeenHouses "-1002"
         [Scenario.casa3; Scenario.casa4; Scenario.casa5]
         (log (log Scenario.start Scenario.visitsB)
            [Post "-1002" [Scenario.casa3]; Post "-1002" [Scenario.casa4];
             Post "-1002" [Scenario.casa5]]).
Proof.
  destruct (chunks_partition_and_deliver [10; 20; 30; 40; 50] 2 5
              Scenario.reliable "-1002" Scenario.groupB
              Scenario.casa3 Scenario.casa4 Scenario.casa5
              Scenario.start (log Scenario.start Scenario.visitsB))
    as [Hpart Hrun].
  split.
  - apply Hpart; [lia | simpl; lia].
  - apply Hrun; [reflexivity | lia | reflexivity | vm_compute; reflexivity].
Defined.

(** * Further properties of the code *)

(** ** Fragments, fee captures and the texts the filter reads *)

Lemma beforeHash_no_hash s : mentions "#" (beforeHash s) = false.
Proof.
  induction s as [|c rest IH]; cbn; [reflexivity|].
  destruct (Ascii.eqb c "#") eqn:E; cbn; [reflexivity|]. now rewrite E.
Qed.

Lemma beforeHash_id s : mentions "#" s = false -> beforeHash s = s.
Proof.
  induction s as [|c rest IH]; cbn; [reflexivity|].
  destruct (Ascii.eqb c "#"); cbn; [discriminate|]. intros H. now rewrite IH.
Qed.

Lemma beforeHash_fragment s f :
  mentions "#" s = false -> beforeHash (s ++ String "#" f)%string = s.
Proof.
  induction s as [|c rest IH]; rewrite ?append_cons, ?append_empty;
    cbn [beforeHash mentions].
  - intros _. now rewrite Ascii.eqb_refl.
  - destruct (Ascii.eqb c "#"); cbn [orb]; [discriminate|].
    intros H. now rewrite IH.
Qed.

Lemma beforeHash_prefix s :
  exists rest, s = (beforeHash s ++ rest)%string
               /\ (rest = "" \/ exists f, rest = String "#" f).
Proof.
  induction s as [|c tl (rest & Heq & Hrest)]; cbn [beforeHash].
  - exists "". auto.
  - destruct (Ascii.eqb_spec c "#") as [->|Hne].
    + exists (String "#" tl). rewrite append_empty. eauto.
    + exists rest. rewrite append_cons, <- Heq. auto.
Qed.

(** X1.  The key under which a candidate is looked up and later recorded
    is its [href] cut before the first [#]: the key holds no [#], the
    [href] is the key followed by nothing or by a fragment, an [href]
    without [#] is its own key, and two [href]s that differ only in their
    fragment have the same key. *)
Theorem fragment_stripping (href : string) :
  mentions "#" (cardUrl (Some href)) = false
  /\ (exists rest, href = (cardUrl (Some href) ++ rest)%string
                   /\ (rest = "" \/ exists f, rest = String "#" f))
  /\ (mentions "#" href = false ->
      cardUrl (Some href) = href
      /\ forall f, cardUrl (Some (href ++ String "#" f)%string) = href).
Proof.
  unfold cardUrl. cbn [default]. split; [apply beforeHash_no_hash|].
  split; [apply beforeHash_prefix|].
  intros H. split; [apply beforeHash_id, H|].
  intros f. apply beforeHash_fragment, H.
Qed.

Lemma fragment_stripping_witness :
  mentions "#" "https://casa/1" = false
  /\ cardUrl (Some "https://casa/1#fotos") = "https://casa/1".
Proof.
  assert (H : mentions "#" "https://casa/1" = false) by reflexivity.
  split; [exact H|].
  exact (proj2 (proj2 (proj2 (fragment_stripping "https://casa/1")) H) "fotos").
Defined.

Lemma trimStart_split s :
  exists ws, s = (ws ++ trimStart s)%string /\ whiteSpaces ws.
Proof.
  destruct (whiteSpace_cut_total (String.length s) s (le_n _))
    as (ws & body & -> & Hw & Hplain).
  exists ws. rewrite (trimStart_whiteSpaces _ _ Hw), (trimStart_plain _ Hplain).
  auto.
Qed.

Lemma takeFee_split s :
  exists post, s = (takeFee s ++ post)%string
               /\ allFeeChars (takeFee s) = true /\ feeStops post = true.
Proof.
  induction s as [|c rest (post & Heq & Hall & Hstop)]; cbn [takeFee].
  - exists "". auto.
  - destruct (isFeeChar c) eqn:E.
    + exists post. cbn [allFeeChars]. rewrite append_cons, E, Hall, <- Heq. auto.
    + exists (String c rest). cbn [allFeeChars feeStops]. rewrite E. auto.
Qed.

Lemma matchFee_no_dollar label : mentions "$" label = false -> matchFee label = None.
Proof.
  induction label as [|c rest IH]; cbn; [reflexivity|].
  destruct (Ascii.eqb c "$"); cbn; [discriminate | exact IH].
Qed.

Lemma matchFee_shape label capture :
  matchFee label = Some capture ->
  capture <> "" /\ allFeeChars capture = true
  /\ exists pre ws post,
       label = (pre ++ String "$" (ws ++ capture ++ post))%string
       /\ whiteSpaces ws /\ feeStops post = true.
Proof.
  revert capture.
  induction label as [|c rest IH]; cbn [matchFee]; intros capture; [discriminate|].
  assert (Hrec : matchFee rest = Some capture ->
                 capture <> "" /\ allFeeChars capture = true
                 /\ exists pre ws post,
                      String c rest = (pre ++ String "$" (ws ++ capture ++ post))%string
                      /\ whiteSpaces ws /\ feeStops post = true).
  { intros H. destruct (IH capture H) as (Hne & Hall & pre & ws & post & Heq & Hws & Hpost).
    split; [exact Hne|]. split; [exact Hall|].
    exists (String c pre), ws, post. rewrite append_cons, <- Heq. auto. }
  destruct (Ascii.eqb_spec c "$") as [->|Hc]; [|exact Hrec].
  destruct (trimStart_split rest) as (ws & Hrest & Hws).
  destruct (takeFee_split (trimStart rest)) as (post & Htake & Hall & Hpost).
  destruct (takeFee (trimStart rest)) as [|d cap] eqn:E; [exact Hrec|].
  intros [= <-]. split; [discriminate|]. split; [exact Hall|].
  exists "", ws, post. rewrite append_empty, <- Htake, <- Hrest. auto.
Qed.

(** X2.  What [retrieveSpecs] captures out of the maintenance-fee label:
    nothing when the label holds no [$]; otherwise a non-empty text of
    digits and dots that stands in the label right after a [$] and any
    white space (of the whole class [\s], the no-break space included),
    and that is followed by no further digit or dot. *)
Theorem fee_capture_shape (label : string) :
  (mentions "$" label = false -> matchFee label = None)
  /\ forall capture, matchFee label = Some capture ->
       capture <> "" /\ allFeeChars capture = true
       /\ exists pre ws post,
            label = (pre ++ String "$" (ws ++ capture ++ post))%string
            /\ whiteSpaces ws /\ feeStops post = true.
Proof.
  split; [apply matchFee_no_dollar | intros capture; apply matchFee_shape].
Qed.

Lemma fee_capture_shape_witness :
  matchFee noBreakLabel = Some "150.000"
  /\ "150.000" <> "" /\ allFeeChars "150.000" = true
  /\ exists pre ws post,
       noBreakLabel = (pre ++ String "$" (ws ++ "150.000" ++ post))%string
       /\ whiteSpaces ws /\ feeStops post = true.
Proof.
  assert (H : matchFee noBreakLabel = Some "150.000") by reflexivity.
  split; [exact H|].
  exact (proj2 (fee_capture_shape noBreakLabel) _ H).
Defined.

Lemma fee_char_cases c : isFeeChar c = true -> isDigit c = true \/ c = "."%char.
Proof.
  destruct c as [[] [] [] [] [] [] [] []]; cbn; intros H;
    try discriminate H; auto.
Qed.

Lemma fee_text_plain s :
  allFeeChars s = true ->
  trimStart s = s /\ stripSign s = (1, s) /\ stripHexPrefix s = (10, s).
Proof.
  destruct s as [|c [|c' rest]]; cbn [allFeeChars].
  - auto.
  - rewrite andb_true_r. intros H.
    destruct c as [[] [] [] [] [] [] [] []]; cbn in H; try discriminate H; auto.
  - intros H. apply andb_true_iff in H as [Hc H]. apply andb_true_iff in H as [Hc' _].
    destruct c as [[] [] [] [] [] [] [] []]; cbn in Hc; try discriminate Hc;
      (split; [reflexivity|]; split; [reflexivity|]);
      try reflexivity;
      destruct c' as [[] [] [] [] [] [] [] []]; cbn in Hc'; try discriminate Hc';
      reflexivity.
Qed.

Lemma parseInt_fee_text s :
  allFeeChars s = true ->
  parseInt s = match leadingDigits s with
               | EmptyString => NaN
               | digits => Int (decimalValue digits)
               end.
Proof.
  intros Hall. destruct (fee_text_plain s Hall) as (Ht & Hs & Hx).
  unfold parseInt. rewrite Ht, Hs, Hx, parseDigits_leading.
  destruct (leadingDigits s) as [|d ds] eqn:E; [reflexivity|].
  rewrite parseDigits_decimal_start;
    [| discriminate | rewrite <- E; apply leadingDigits_digits].
  f_equal. lia.
Qed.

(** X3.  The fee operand of the budget comparison.  Without a capture it
    is 0; with a capture it is the value of the digits the capture begins
    with, up to its first dot (as long as a double holds that value
    exactly), and [NaN] when the capture begins with a dot.  Whenever it is
    a number, it is not negative. *)
Theorem fee_operand_reads_leading_digits (uf : number) (u : string) (page : HousePage) :
  (forall capture,
      matchFee (default "" (maintenanceFeeLabel page)) = Some capture ->
      exact (decimalValue (leadingDigits capture))) ->
  feeOperand (houseDataOfPage uf u page)
  = match matchFee (default "" (maintenanceFeeLabel page)) with
    | None => Int 0
    | Some capture =>
        match leadingDigits capture with
        | EmptyString => NaN
        | digits => Int (decimalValue digits)
        end
    end
  /\ forall m, feeOperand (houseDataOfPage uf u page) = Int m -> 0 <= m.
Proof.
  intros _.
  assert (Heq : feeOperand (houseDataOfPage uf u page)
                = match matchFee (default "" (maintenanceFeeLabel page)) with
                  | None => Int 0
                  | Some capture =>
                      match leadingDigits capture with
                      | EmptyString => NaN
                      | digits => Int (decimalValue digits)
                      end
                  end).
  { rewrite feeOperand_extracted.
    destruct (matchFee _) as [capture|] eqn:E; [|reflexivity].
    cbn [default]. apply parseInt_fee_text.
    apply (matchFee_shape _ _ E). }
  split; [exact Heq|]. rewrite Heq.
  destruct (matchFee _) as [capture|]; [|intros m [= <-]; lia].
  pose proof (leadingDigits_digits capture) as Hd.
  destruct (leadingDigits capture) as [|d ds]; [discriminate|].
  intros m Hm. injection Hm as <-. exact (decimalValue_nonneg _ Hd).
Qed.

Lemma fee_operand_reads_leading_digits_witness :
  matchFee (default "" (maintenanceFeeLabel Scenario.feePage)) = Some "150.000"
  /\ exact (decimalValue (leadingDigits "150.000"))
  /\ feeOperand (houseDataOfPage (Int 38000) "https://casa/1" Scenario.feePage)
     = Int (decimalValue "150").
Proof.
  assert (Hm : matchFee (default "" (maintenanceFeeLabel Scenario.feePage))
               = Some "150.000") by reflexivity.
  assert (Hx : exact (decimalValue (leadingDigits "150.000")))
    by (unfold exact; vm_compute; discriminate).
  split; [exact Hm|]. split; [exact Hx|].
  refine (proj1 (fee_operand_reads_leading_digits (Int 38000) "https://casa/1"
                   Scenario.feePage _)).
  intros capture Hc. rewrite Hm in Hc. injection Hc as <-. exact Hx.
Defined.

(** X4.  The rent is written into the listing as text and read back by the
    filter without loss, as long as a double holds the integers involved
    exactly: printing such a number and parsing the text gives the number
    again, [NaN] included, so for a page with a non-empty price text the
    rent operand of the comparison is what [convertIntoClp] made of that
    text. *)
Theorem rent_text_round_trip (uf : number) (u rawPrice : string) (page : HousePage) :
  (forall x : number, exactNumber x -> parseInt (numberToString x) = x)
  /\ (fractionText page = Some rawPrice -> rawPrice <> "" ->
      exactNumber (parseInt (removeDots rawPrice)) ->
      (default "" (currencySymbol page) = "UF" -> exactNumber uf) ->
      exactNumber (convertIntoClp uf rawPrice (default "" (currencySymbol page))) ->
      rentPrice (houseDataOfPage uf u page)
      = Some (numberToString
                (convertIntoClp uf rawPrice (default "" (currencySymbol page))))
      /\ rentOperand (houseDataOfPage uf u page)
         = convertIntoClp uf rawPrice (default "" (currencySymbol page))).
Proof.
  split; [intros x _; apply parseInt_numberToString|].
  intros Hp Hne _ _ _.
  split; [now apply rentPrice_extracted | now apply rentOperand_extracted].
Qed.

Lemma rent_text_round_trip_witness :
  exactNumber (parseInt (removeDots "10"))
  /\ exactNumber (Int 38000)
  /\ exactNumber (convertIntoClp (Int 38000) "10" "UF")
  /\ rentOperand (houseDataOfPage (Int 38000) "https://casa/4"
                    (Scenario.pageOf "10" "UF" None))
     = convertIntoClp (Int 38000) "10" "UF".
Proof.
  assert (H1 : exactNumber (parseInt (removeDots "10")))
    by (unfold exactNumber, exact; vm_compute; discriminate).
  assert (H2 : exactNumber (Int 38000))
    by (unfold exactNumber, exact; vm_compute; discriminate).
  assert (H3 : exactNumber (convertIntoClp (Int 38000) "10" "UF"))
    by (unfold exactNumber, exact; vm_compute; discriminate).
  repeat (split; [assumption|]).
  refine (proj2 (proj2 (rent_text_round_trip (Int 38000) "https://casa/4" "10"
                          (Scenario.pageOf "10" "UF" None))
                   eq_refl _ H1 (fun _ => H2) H3)).
  discriminate.
Defined.

(** X5.  With a well-formed price text and an exchange rate that is not
    negative, all within what a double holds exactly, the normalised
    amount is an integer that is not negative. *)
Theorem normalised_amount_nonneg (rate : Z) (rawPrice unitPrice : string) :
  wellFormedPrice rawPrice -> 0 <= rate ->
  exact (decimalValue (removeDots rawPrice)) ->
  (unitPrice = "UF" ->
   exact rate /\ exact (decimalValue (removeDots rawPrice) * rate)) ->
  exists n, convertIntoClp (Int rate) rawPrice unitPrice = Int n /\ 0 <= n.
Proof.
  intros [Hne Hd] Hrate _ _. unfold convertIntoClp.
  rewrite (parseInt_decimal _ Hne Hd).
  pose proof (decimalValue_nonneg _ Hd) as Hv.
  destruct (String.eqb unitPrice "UF"); cbn [jsMul]; eexists; split;
    try reflexivity; nia.
Qed.

Lemma normalised_amount_nonneg_witness :
  wellFormedPrice "2.500" /\ 0 <= 38000
  /\ exact (decimalValue (removeDots "2.500"))
  /\ exact 38000
  /\ exact (decimalValue (removeDots "2.500") * 38000)
  /\ exists n, convertIntoClp (Int 38000) "2.500" "UF" = Int n /\ 0 <= n.
Proof.
  assert (Hw : wellFormedPrice "2.500") by (split; [discriminate | reflexivity]).
  assert (Hr : 0 <= 38000) by lia.
  assert (Hv : exact (decimalValue (removeDots "2.500")))
    by (unfold exact; vm_compute; discriminate).
  assert (Hx : exact 38000) by (unfold exact; vm_compute; discriminate).
  assert (Hp : exact (decimalValue (removeDots "2.500") * 38000))
    by (unfold exact; vm_compute; discriminate).
  repeat (split; [assumption|]).
  exact (normalised_amount_nonneg 38000 "2.500" "UF" Hw Hr Hv (fun _ => conj Hx Hp)).
Defined.


(** ** More on the batcher *)

Section ChunkingMore.
Context {A : Type}.
Implicit Types (array : list A) (chunks : list (list A)).

(** A step that is not positive never moves the index past zero. *)
Lemma chunkLoop_backward_step fuel array (s k : Z) chunks :
  array <> [] -> s <= 0 -> k <= 0 ->
  chunkLoop fuel array (Int s) (Int k) chunks = None.
Proof.
  intros Hne Hs. revert k chunks.
  induction fuel as [|fuel IH]; intros k chunks Hk; cbn [chunkLoop jsLt jsAdd];
    replace (k <? Z.of_nat (length array)) with true
      by (symmetry; apply Z.ltb_lt; destruct array; [congruence | cbn; lia]).
  - reflexivity.
  - apply IH. lia.
Qed.

Lemma chunkArray_nan fuel array :
  array <> [] -> chunkArray (S fuel) array NaN = Some [[]].
Proof.
  intros Hne. unfold chunkArray. cbn [chunkLoop jsLt jsAdd].
  replace (0 <? Z.of_nat (length array)) with true
    by (symmetry; apply Z.ltb_lt; destruct array; [congruence | cbn; lia]).
  rewrite chunkLoop_exit by reflexivity.
  unfold slice, toInteger.
  replace (0 <? 0) with false by reflexivity.
  rewrite Z.min_l by lia. rewrite Z.sub_diag. reflexivity.
Qed.

Lemma chunked_total (n : nat) chunks :
  (1 <= n)%nat -> chunked n chunks -> chunks <> [] ->
  exists r, (1 <= r <= n)%nat
            /\ length (concat chunks) = ((length chunks - 1) * n + r)%nat.
Proof.
  intros Hn. induction chunks as [|c rest IH]; [congruence|].
  intros [Hc Hrest] _. destruct rest as [|c' rest'].
  - exists (length c). cbn. rewrite app_nil_r. lia.
  - destruct (IH Hrest) as (r & Hr & Hlen); [discriminate|].
    exists r. split; [exact Hr|].
    change (concat (c :: c' :: rest')) with (c ++ concat (c' :: rest')).
    rewrite length_app, Hlen, Hc. cbn [length]. lia.
Qed.

Lemma chunked_nonempty (n : nat) chunks :
  (1 <= n)%nat -> chunked n chunks -> Forall (fun c => c <> []) chunks.
Proof.
  intros Hn H. induction chunks as [|c rest IH]; constructor.
  - destruct H as [Hc Hrest]. intros ->. destruct rest; cbn in Hc; lia.
  - apply IH. apply H.
Qed.

End ChunkingMore.

(** X6.  [chunkArray] returns exactly in three cases: the list is empty,
    the chunk size is [NaN], or the chunk size is at least 1.  On a
    non-empty list a size of zero or below keeps the loop running whatever
    the fuel, and a size of [NaN] ends it after one round with a single
    empty chunk. *)
Theorem chunkArray_returns_iff {A} (array : list A) (size : number) :
  (exists fuel cs, chunkArray fuel array size = Some cs)
  <-> array = [] \/ size = NaN \/ exists s, size = Int s /\ 1 <= s.
Proof.
  split.
  - intros (fuel & cs & Hrun).
    destruct array as [|x rest]; [auto|]. destruct size as [|s]; [auto|].
    destruct (Z.le_gt_cases s 0) as [Hle|Hgt]; [|right; right; exists s; split; [auto | lia]].
    unfold chunkArray in Hrun.
    rewrite chunkLoop_backward_step in Hrun by (first [discriminate | lia]).
    discriminate Hrun.
  - intros [->|[->|(s & -> & Hs)]].
    + exists O, []. apply chunkArray_empty.
    + destruct array as [|x rest].
      * exists O, []. apply chunkArray_empty.
      * exists 1%nat, [[]]. apply chunkArray_nan. discriminate.
    + destruct (chunkArray_spec array s (length array) Hs (le_n _)) as (cs & Hrun & _).
      exists (length array), cs. exact Hrun.
Qed.

(** X7.  For a chunk size of at least 1 the number of batches is the
    length of the list divided by the size, rounded up, and no batch is
    empty. *)
Theorem chunkArray_count {A} (array : list A) (s : Z) (fuel : nat) :
  1 <= s -> (length array <= fuel)%nat ->
  exists cs, chunkArray fuel array (Int s) = Some cs
             /\ Z.of_nat (length cs) = (Z.of_nat (length array) + s - 1) / s
             /\ Forall (fun c => c <> []) cs.
Proof.
  intros Hs Hfuel.
  destruct (chunkArray_spec array s fuel Hs Hfuel) as (cs & Hrun & Hcat & Hshape).
  exists cs. split; [exact Hrun|]. split; [|apply (chunked_nonempty (Z.to_nat s)); [lia | exact Hshape]].
  destruct cs as [|c rest].
  - cbn in Hcat. subst array. cbn [length]. symmetry. apply Z.div_small. lia.
  - destruct (chunked_total (Z.to_nat s) (c :: rest)) as (r & Hr & Hlen);
      [lia | exact Hshape | discriminate |].
    rewrite Hcat in Hlen. rewrite Hlen.
    set (k := length (c :: rest)) in *.
    assert (Hk : (1 <= k)%nat) by (subst k; cbn; lia).
    replace (Z.of_nat ((k - 1) * Z.to_nat s + r) + s - 1)
      with ((Z.of_nat r - 1) + Z.of_nat k * s) by nia.
    rewrite Z.div_add by lia. rewrite Z.div_small by lia. lia.
Qed.

Lemma chunkArray_count_witness :
  1 <= 2 /\ (length [1; 2; 3; 4; 5] <= 5)%nat
  /\ exists cs, chunkArray 5 [1; 2; 3; 4; 5] (Int 2) = Some cs
                /\ Z.of_nat (length cs) = 3.
Proof.
  split; [lia|]. split; [cbn; lia|].
  destruct (chunkArray_count [1; 2; 3; 4; 5] 2 5) as (cs & Hrun & Hcount & _);
    [lia | cbn; lia |].
  exists cs. split; [exact Hrun | exact Hcount].
Defined.

Lemma chunkArray_returns_iff_witness :
  exists fuel cs, chunkArray fuel ["a"; "b"] NaN = Some cs.
Proof.
  apply (proj2 (chunkArray_returns_iff ["a"; "b"] NaN)).
  right. left. reflexivity.
Defined.

(** ** More on the seen-set update *)

Lemma storeChat_storeChat chatId cfg1 cfg2 dataStore :
  storeChat chatId cfg2 (storeChat chatId cfg1 dataStore)
  = storeChat chatId cfg2 dataStore.
Proof.
  induction dataStore as [|[k c] rest IH]; cbn; [reflexivity|].
  destruct (String.eqb k chatId) eqn:E; cbn; rewrite E; [reflexivity | now rewrite IH].
Qed.

Lemma markAll_app l1 l2 seen : markAll (l1 ++ l2) seen = markAll l2 (markAll l1 seen).
Proof. unfold markAll. apply foldl_app. Qed.

Lemma markAll_same_keys l l' (seen : gmap string bool) :
  (forall u, u ∈ map seenKey l <-> u ∈ map seenKey l') ->
  markAll l seen = markAll l' seen.
Proof.
  intros Hkeys. apply map_eq. intros u. rewrite !markAll_lookup.
  destruct (decide (u ∈ map seenKey l)) as [Hin|Hout].
  - rewrite decide_True by (apply Hkeys, Hin). reflexivity.
  - rewrite decide_False by (rewrite <- Hkeys; exact Hout). reflexivity.
Qed.

(** X8.  Two seen-set updates of a known group in a row amount to one
    update with the two lists joined, and the outcome of an update depends
    only on which URLs the list holds: lists with the same URLs, in any
    order and with any repetition, lead to the same store. *)
Theorem seen_update_composes (chatId : string) (l1 l2 l l' : list HouseData)
    (dataStore : DataStore) (stored : ChatConfig) :
  lookupChat chatId dataStore = Some stored ->
  (exists mid, markSeen chatId l1 dataStore = Some mid
               /\ markSeen chatId l2 mid = markSeen chatId (l1 ++ l2) dataStore)
  /\ ((forall u, u ∈ map seenKey l <-> u ∈ map seenKey l') ->
      markSeen chatId l dataStore = markSeen chatId l' dataStore).
Proof.
  intros Hstored. split.
  - unfold markSeen at 1. rewrite Hstored. eexists. split; [reflexivity|].
    unfold markSeen. rewrite (lookupChat_storeChat_eq _ _ _ _ Hstored), Hstored.
    cbn [searchLinks alreadySeenHouses maxPrice].
    rewrite storeChat_storeChat, markAll_app. reflexivity.
  - intros Hkeys. unfold markSeen. rewrite Hstored.
    now rewrite (markAll_same_keys l l' _ Hkeys).
Qed.

Lemma seen_update_composes_witness :
  markSeen "-1001"
    [Scenario.listing "https://casa/1" 1 None;
     Scenario.listing "https://casa/2" 2 None] Scenario.store
  = markSeen "-1001"
      [Scenario.listing "https://casa/2" 2 None;
       Scenario.listing "https://casa/1" 1 None;
       Scenario.listing "https://casa/2" 2 None] Scenario.store.
Proof.
  apply (proj2 (seen_update_composes "-1001" [] [] _ _ Scenario.store
                  Scenario.groupA eq_refl)).
  intros u. cbn [map seenKey Scenario.listing url default].
  rewrite !elem_of_cons. tauto.
Defined.

(** X9.  When the group has an entry in the file, [updateAlreadySeenHouses]
    returns after a single write, which is the last event; in the entry it
    leaves, a URL counts as seen exactly when it did before or is the URL
    of one of the listings given. *)
Theorem seen_update_records (chatId : string) (housesData : list HouseData)
    (st : Machine) (stored : ChatConfig) :
  lookupChat chatId (file st) = Some stored ->
  exists dataStore' stored',
    updateAlreadySeenHouses chatId housesData st
    = (Returned tt, {| file := dataStore';
                       trace := trace st ++ [WriteFile dataStore'] |})
    /\ lookupChat chatId dataStore' = Some stored'
    /\ forall u, isSeen (alreadySeenHouses stored') u = true <->
                 isSeen (alreadySeenHouses stored) u = true
                 \/ u ∈ map seenKey housesData.
Proof.
  intros Hstored. rewrite updateAlreadySeenHouses_run.
  destruct (markSeen chatId housesData (file st)) as [dataStore'|] eqn:Hm.
  2:{ unfold markSeen in Hm. rewrite Hstored in Hm. discriminate Hm. }
  destruct (markSeen_frame _ _ _ _ Hm) as [_ Hall].
  destruct (Hall chatId stored Hstored) as (stored' & Hl & _ & _ & Hsame).
  exists dataStore', stored'. split; [reflexivity|]. split; [exact Hl|].
  intros u. rewrite (Hsame eq_refl), isSeen_markAll, orb_true_iff, bool_decide_eq_true.
  tauto.
Qed.

Lemma seen_update_records_witness :
  exists dataStore' stored',
    lookupChat "-1002" dataStore' = Some stored'
    /\ isSeen (alreadySeenHouses stored') "https://casa/3" = true.
Proof.
  destruct (seen_update_records "-1002" [Scenario.casa3] Scenario.start
              Scenario.groupB eq_refl)
    as (dataStore' & stored' & _ & Hl & Hseen).
  exists dataStore', stored'. split; [exact Hl|].
  apply Hseen. right. apply list_elem_of_singleton. reflexivity.
Defined.

(** X10.  When the group has no entry in the file, an update with a
    non-empty list throws before anything is written, leaving file and
    trace as they were, while an update with the empty list writes the
    file back as it read it. *)
Theorem seen_update_unknown_group (chatId : string) (housesData : list HouseData)
    (st : Machine) :
  lookupChat chatId (file st) = None ->
  (housesData <> [] -> updateAlreadySeenHouses chatId housesData st = (Thrown, st))
  /\ updateAlreadySeenHouses chatId [] st
     = (Returned tt, log st [WriteFile (file st)]).
Proof.
  intros Hnone. split.
  - intros Hne. rewrite updateAlreadySeenHouses_run. unfold markSeen.
    rewrite Hnone. destruct housesData; [congruence | reflexivity].
  - rewrite updateAlreadySeenHouses_run. unfold markSeen. rewrite Hnone. reflexivity.
Qed.

Lemma seen_update_unknown_group_witness :
  lookupChat "-1999" (file Scenario.start) = None
  /\ updateAlreadySeenHouses "-1999" [Scenario.casa3] Scenario.start
     = (Thrown, Scenario.start).
Proof.
  assert (H : lookupChat "-1999" (file Scenario.start) = None) by reflexivity.
  split; [exact H|].
  apply (proj1 (seen_update_unknown_group "-1999" [Scenario.casa3]
                  Scenario.start H)).
  discriminate.
Defined.

(** ** What the collection phase produces *)

Lemma truthy_nonempty x : truthy x <> Some "".
Proof. destruct x as [[|c s]|]; cbn; congruence. Qed.

Lemma numberToString_nonempty x : numberToString x <> "".
Proof.
  destruct x as [|[|p|p]]; cbn; try discriminate.
  unfold NilZero.string_of_uint.
  pose proof (DecimalPos.Unsigned.to_uint_nonnil p) as Hn.
  destruct (string_of_uint_nonnil _ Hn) as [Hz Hs].
  unfold NilZero.string_of_uint in Hz. rewrite Hz. exact Hs.
Qed.

Lemma houseDataOfPage_wellExtracted uf seen u page :
  u <> "" -> mentions "#" u = false -> isSeen seen u = false ->
  wellExtracted seen (houseDataOfPage uf u page).
Proof.
  intros Hne Hhash Hunseen. unfold wellExtracted, houseDataOfPage.
  cbn [url areaOfTHeHouse numberOfDorms description rentPrice maintenanceFee].
  split; [eauto|]. repeat split; try apply truthy_nonempty.
  - destruct (truthy (fractionText page)); [|discriminate].
    intros [= H]. exact (numberToString_nonempty _ H).
  - unfold retrieveSpecs. cbn [specMaintenanceFee].
    destruct (matchFee _) as [capture|] eqn:E; [|discriminate].
    intros [= ->]. destruct (matchFee_shape _ _ E) as [Hc _]. congruence.
Qed.

Lemma cardResult_wellExtracted W seen card h :
  cardResult W seen card = Some h ->
  wellExtracted seen h /\ url h = Some (cardUrl card).
Proof.
  unfold cardResult, cardSkipped.
  destruct (String.eqb_spec (cardUrl card) "") as [|Hne]; [discriminate|].
  destruct (isSeen seen (cardUrl card)) eqn:Hs; [discriminate|]. cbn [orb].
  destruct (housePage W (cardUrl card)) as [page|]; [|discriminate].
  intros [= <-]. split; [|reflexivity].
  apply houseDataOfPage_wellExtracted; [exact Hne | | exact Hs].
  unfold cardUrl. apply beforeHash_no_hash.
Qed.

(** X11.  Whenever [retrieveHouseCardInfo] returns a listing, the listing
    carries the card's [href] cut before its fragment, that URL is not
    empty and did not count as seen, and the area, the dorm count, the
    description, the rent and the maintenance fee are each either absent
    or a non-empty text. *)
Theorem extracted_listing_invariant (W : World) (houseCard : Card)
    (seen : gmap string bool) (st st' : Machine) (h : HouseData) :
  retrieveHouseCardInfo W houseCard seen st = (Returned (Some h), st') ->
  wellExtracted seen h
  /\ url h = Some (cardUrl houseCard)
  /\ st' = log st [GotoDetail (cardUrl houseCard)].
Proof.
  rewrite retrieveHouseCardInfo_run. intros [= Hres <-].
  destruct (cardResult_wellExtracted _ _ _ _ Hres) as [Hw Hu].
  split; [exact Hw|]. split; [exact Hu|].
  unfold cardEvents. unfold cardResult in Hres.
  destruct (cardSkipped seen houseCard); [discriminate | reflexivity].
Qed.

Lemma extracted_listing_invariant_witness :
  wellExtracted (alreadySeenHouses Scenario.groupB) Scenario.casa3.
Proof.
  refine (proj1 (extracted_listing_invariant Scenario.portal (Some "https://casa/3")
                   (alreadySeenHouses Scenario.groupB) Scenario.start
                   (log Scenario.start [GotoDetail "https://casa/3"])
                   Scenario.casa3 _)).
  vm_compute. reflexivity.
Defined.

(** A detail page that cannot be loaded costs its own card only. *)
Lemma pageExtracted_app W seen cards1 cards2 :
  pageExtracted W seen (cards1 ++ cards2)
  = pageExtracted W seen cards1 ++ pageExtracted W seen cards2.
Proof. unfold pageExtracted. apply omap_app. Qed.

(** X12.  The card loop never throws, and a card whose detail page cannot
    be loaded is skipped on its own: the listings returned are those of the
    cards before it followed by those of the cards after it. *)
Theorem failed_detail_page_is_skipped (W : World) (seen : gmap string bool)
    (before after : list Card) (houseCard : Card) (st : Machine) :
  (exists housesData st',
      cardsLoop W (before ++ houseCard :: after) seen [] st
      = (Returned housesData, st'))
  /\ (housePage W (cardUrl houseCard) = None ->
      (cardsLoop W (before ++ houseCard :: after) seen [] st).1
      = Returned (pageExtracted W seen before ++ pageExtracted W seen after)).
Proof.
  rewrite cardsLoop_run. split; [eauto|].
  intros Hfail. cbn [fst app]. f_equal.
  rewrite pageExtracted_app. f_equal.
  change (pageExtracted W seen (houseCard :: after))
    with (match cardResult W seen houseCard with
          | Some h => h :: pageExtracted W seen after
          | None => pageExtracted W seen after
          end).
  unfold cardResult. rewrite Hfail.
  destruct (cardSkipped seen houseCard); reflexivity.
Qed.

Lemma failed_detail_page_is_skipped_witness :
  housePage Scenario.portal (cardUrl (Some "https://casa/9")) = None
  /\ (cardsLoop Scenario.portal
        ([Some "https://casa/3"] ++ Some "https://casa/9" :: [Some "https://casa/5"])
        ∅ [] Scenario.start).1
     = Returned [Scenario.casa3; Scenario.casa5].
Proof.
  assert (H : housePage Scenario.portal (cardUrl (Some "https://casa/9")) = None)
    by reflexivity.
  split; [exact H|].
  exact (proj2 (failed_detail_page_is_skipped Scenario.portal ∅
                  [Some "https://casa/3"] [Some "https://casa/5"]
                  (Some "https://casa/9") Scenario.start) H).
Defined.

(** ** The shape of a group run *)

Section GroupRun.
Variable W : World.

Lemma cardEvents_navigation seen card : Forall isNavigation (cardEvents seen card).
Proof. unfold cardEvents. destruct (cardSkipped seen card); repeat constructor. Qed.

Lemma pageEvents_navigation seen cards : Forall isNavigation (pageEvents seen cards).
Proof.
  unfold pageEvents. induction cards as [|card rest IH]; cbn [map concat].
  - constructor.
  - apply Forall_app. split; [apply cardEvents_navigation | exact IH].
Qed.

Lemma linksEvents_navigation cfg links : Forall isNavigation (linksEvents W cfg links).
Proof.
  induction links as [|link rest IH]; cbn [linksEvents]; constructor; [exact I|].
  destruct (searchPage W link); [|constructor].
  apply Forall_app. split; [apply pageEvents_navigation | exact IH].
Qed.

Lemma linksResult_failed cfg links link :
  link ∈ links -> searchPage W link = None -> linksResult W cfg links = None.
Proof.
  intros Hin Hfail. induction links as [|l rest IH]; [inversion Hin|].
  cbn [linksResult]. apply elem_of_cons in Hin as [<-|Hin].
  - now rewrite Hfail.
  - destruct (searchPage W l); [|reflexivity]. now rewrite (IH Hin).
Qed.

Lemma dispatch_payloads chatId chunks tr :
  Forall (fun e => exists chunk, e = Post chatId chunk /\ chunk <> [] /\ chunk ∈ chunks)
         (dispatch W chatId chunks tr).2.
Proof.
  revert tr. induction chunks as [|chunk rest IH]; intros tr; cbn [dispatch].
  - constructor.
  - assert (Hrest : forall tr',
               Forall (fun e => exists c, e = Post chatId c /\ c <> []
                                          /\ c ∈ chunk :: rest)
                      (dispatch W chatId rest tr').2).
    { intros tr'. eapply Forall_impl; [apply IH|].
      intros e (c & -> & Hne & Hin). exists c. repeat split; auto.
      apply elem_of_cons. auto. }
    destruct chunk as [|h tl]; [apply Hrest|].
    assert (Hhere : exists c, Post chatId (h :: tl) = Post chatId c /\ c <> []
                              /\ c ∈ (h :: tl) :: rest).
    { eexists. repeat split; [discriminate | apply elem_of_cons; auto]. }
    destruct (axiosPost W tr chatId (h :: tl)); cbn [snd].
    + constructor; [exact Hhere | apply Hrest].
    + repeat constructor. exact Hhere.
Qed.

Lemma dispatch_all_delivered chatId chunks tr :
  (dispatch W chatId chunks tr).1 = true ->
  Forall (fun c => c <> []) chunks ->
  (dispatch W chatId chunks tr).2 = map (Post chatId) chunks.
Proof.
  revert tr. induction chunks as [|chunk rest IH]; intros tr Hok Hne; [reflexivity|].
  inversion Hne as [|? ? Hc Hrest]; subst.
  destruct chunk as [|h tl]; [congruence|]. cbn [dispatch] in *.
  destruct (axiosPost W tr chatId (h :: tl)); [|discriminate Hok].
  cbn [fst snd map] in *. f_equal. apply IH; assumption.
Qed.

End GroupRun.

Section ChunkMembers.
Context {A : Type}.

Lemma slice_subseteq (array : list A) start stop : slice array start stop ⊆ array.
Proof.
  unfold slice. etransitivity; [apply subseteq_take | apply subseteq_drop].
Qed.

Lemma chunkLoop_members fuel (array : list A) size i acc cs :
  chunkLoop fuel array size i acc = Some cs ->
  Forall (fun c => c ⊆ array) acc -> Forall (fun c => c ⊆ array) cs.
Proof.
  revert i acc. induction fuel as [|fuel IH]; intros i acc; cbn [chunkLoop].
  - destruct (jsLt i _); [discriminate|]. now intros [= <-].
  - destruct (jsLt i _); [|now intros [= <-]].
    intros Hrun Hacc. apply (IH _ _ Hrun).
    apply Forall_app. split; [exact Hacc|].
    repeat constructor. apply slice_subseteq.
Qed.

Lemma chunkLoop_more_fuel fuel fuel' (array : list A) size i acc cs :
  (fuel <= fuel')%nat ->
  chunkLoop fuel array size i acc = Some cs ->
  chunkLoop fuel' array size i acc = Some cs.
Proof.
  revert fuel' i acc. induction fuel as [|fuel IH]; intros fuel' i acc Hle;
    cbn [chunkLoop].
  - destruct (jsLt i _) eqn:E; [discriminate|]. intros [= <-].
    now apply chunkLoop_exit.
  - destruct fuel' as [|fuel']; [lia|]. cbn [chunkLoop].
    destruct (jsLt i _); [|trivial]. apply IH. lia.
Qed.

Lemma chunkArray_shape fuel (array : list A) (s : Z) cs :
  1 <= s -> chunkArray fuel array (Int s) = Some cs ->
  concat cs = array /\ chunked (Z.to_nat s) cs.
Proof.
  intros Hs Hrun.
  destruct (chunkArray_spec array s (Nat.max fuel (length array)) Hs)
    as (cs' & Hrun' & Hcat & Hshape); [lia|].
  unfold chunkArray in *.
  rewrite (chunkLoop_more_fuel fuel _ _ _ _ _ _ (Nat.le_max_l _ _) Hrun) in Hrun'.
  injection Hrun' as <-. auto.
Qed.

End ChunkMembers.

(** X13.  The events of a group run come in three stretches: navigation
    only, then posts to this group with non-empty payloads, then the write
    of the store.  The write happens exactly when the run returns, it is a
    single one, and it is the last event; a run that does not return
    leaves the file as it was. *)
Theorem group_run_shape (W : World) (fuel : nat) (chatId : string)
    (searchConfig : ChatConfig) (st : Machine) :
  let r := processSearchHousesByChat W fuel chatId searchConfig st in
  exists navs posts tail,
    trace r.2 = trace st ++ navs ++ posts ++ tail
    /\ Forall isNavigation navs
    /\ Forall (fun e => exists chunk, e = Post chatId chunk /\ chunk <> []) posts
    /\ ((r.1 = Returned tt /\ tail = [WriteFile (file r.2)])
        \/ (r.1 <> Returned tt /\ tail = [] /\ file r.2 = file st)).
Proof.
  cbv zeta. rewrite processSearchHousesByChat_run. cbv zeta.
  pose proof (linksEvents_navigation W searchConfig (searchLinks searchConfig)) as Hnav.
  set (navs := linksEvents W searchConfig (searchLinks searchConfig)) in *.
  destruct (linksResult W searchConfig (searchLinks searchConfig)) as [found|].
  2:{ exists navs, [], []. cbn. rewrite app_nil_r.
      split; [reflexivity|]. split; [exact Hnav|]. split; [constructor|].
      right. split; [discriminate | auto]. }
  destruct (chunkArray fuel found (CHUNK_SIZE W)) as [chunks|].
  2:{ exists navs, [], []. cbn. rewrite app_nil_r.
      split; [reflexivity|]. split; [exact Hnav|]. split; [constructor|].
      right. split; [discriminate | auto]. }
  pose proof (dispatch_payloads W chatId chunks (trace (log st navs))) as Hposts.
  assert (Hposts' : Forall (fun e => exists chunk, e = Post chatId chunk /\ chunk <> [])
                           (dispatch W chatId chunks (trace (log st navs))).2).
  { eapply Forall_impl; [exact Hposts|]. intros e (c & -> & Hne & _). eauto. }
  destruct (dispatch W chatId chunks (trace (log st navs))) as [ok posts].
  cbn [fst snd] in *. exists navs, posts.
  destruct ok.
  - rewrite updateAlreadySeenHouses_run. cbn [file log].
    destruct (markSeen chatId found (file st)) as [dataStore'|].
    + exists [WriteFile dataStore']. cbn. rewrite <- !app_assoc. auto 10.
    + exists []. cbn. rewrite app_nil_r, <- !app_assoc.
      split; [reflexivity|]. split; [exact Hnav|]. split; [exact Hposts'|].
      right. split; [discriminate | auto].
  - exists []. cbn. rewrite app_nil_r, <- !app_assoc.
    split; [reflexivity|]. split; [exact Hnav|]. split; [exact Hposts'|].
    right. split; [discriminate | auto].
Qed.

(** X14.  Every post of a group run goes to the group being processed and
    carries at least one listing, and every listing it carries was
    extracted in this run from one of the group's result pages, passed the
    budget filter, and has a URL that did not count as seen when the run
    began. *)
Theorem posts_carry_new_qualifying_listings (W : World) (fuel : nat)
    (chatId : string) (searchConfig : ChatConfig) (st : Machine) :
  exists events,
    trace (processSearchHousesByChat W fuel chatId searchConfig st).2
    = trace st ++ events
    /\ forall id dataMessage, Post id dataMessage ∈ events ->
         id = chatId /\ dataMessage <> []
         /\ forall h, h ∈ dataMessage ->
              extractedOn W searchConfig h
              /\ budgetFilter (maxPrice searchConfig) h = true
              /\ wellExtracted (alreadySeenHouses searchConfig) h.
Proof.
  rewrite processSearchHousesByChat_run. cbv zeta.
  pose proof (linksEvents_navigation W searchConfig (searchLinks searchConfig)) as Hnav.
  set (navs := linksEvents W searchConfig (searchLinks searchConfig)) in *.
  assert (Hnopost : forall id m, Post id m ∈ navs -> False).
  { intros id m Hin. rewrite Forall_forall in Hnav. exact (Hnav _ Hin). }
  destruct (linksResult W searchConfig (searchLinks searchConfig)) as [found|] eqn:Hres.
  2:{ exists navs. split; [reflexivity|]. intros id m Hin. destruct (Hnopost _ _ Hin). }
  destruct (chunkArray fuel found (CHUNK_SIZE W)) as [chunks|] eqn:Hchunks.
  2:{ exists navs. split; [reflexivity|]. intros id m Hin. destruct (Hnopost _ _ Hin). }
  assert (Hmem : Forall (fun c => c ⊆ found) chunks)
    by (eapply chunkLoop_members; [exact Hchunks | constructor]).
  pose proof (dispatch_payloads W chatId chunks (trace (log st navs))) as Hposts.
  assert (Hgood : forall id m,
             Post id m ∈ (dispatch W chatId chunks (trace (log st navs))).2 ->
             id = chatId /\ m <> []
             /\ forall h, h ∈ m ->
                  extractedOn W searchConfig h
                  /\ budgetFilter (maxPrice searchConfig) h = true
                  /\ wellExtracted (alreadySeenHouses searchConfig) h).
  { intros id m Hin. rewrite Forall_forall in Hposts.
    destruct (Hposts _ Hin) as (c & [= -> ->] & Hne & Hc).
    split; [reflexivity|]. split; [exact Hne|]. intros h Hh.
    rewrite Forall_forall in Hmem. apply (Hmem _ Hc) in Hh.
    apply (linksResult_elem W _ _ _ Hres) in Hh as [Hex Hb].
    split; [exact Hex|]. split; [exact Hb|].
    destruct Hex as (link & cards & _ & _ & Hin').
    unfold pageExtracted in Hin'. apply list_elem_of_omap in Hin' as (card & _ & Hcard).
    apply (cardResult_wellExtracted _ _ _ _ Hcard). }
  destruct (dispatch W chatId chunks (trace (log st navs))) as [ok posts].
  cbn [fst snd] in *.
  assert (Hsplit : forall tail,
             (forall id m, Post id m ∈ tail -> False) ->
             forall id m, Post id m ∈ navs ++ posts ++ tail ->
               id = chatId /\ m <> []
               /\ forall h, h ∈ m ->
                    extractedOn W searchConfig h
                    /\ budgetFilter (maxPrice searchConfig) h = true
                    /\ wellExtracted (alreadySeenHouses searchConfig) h).
  { intros tail Htail id m Hin.
    apply elem_of_app in Hin as [Hin|Hin]; [destruct (Hnopost _ _ Hin)|].
    apply elem_of_app in Hin as [Hin|Hin]; [apply Hgood, Hin|].
    destruct (Htail _ _ Hin). }
  destruct ok.
  - rewrite updateAlreadySeenHouses_run. cbn [file log].
    destruct (markSeen chatId found (file st)) as [dataStore'|].
    + exists (navs ++ posts ++ [WriteFile dataStore']).
      split; [cbn; now rewrite <- !app_assoc|]. apply Hsplit.
      intros id m Hin. apply list_elem_of_singleton in Hin. discriminate Hin.
    + exists (navs ++ posts ++ []).
      split; [cbn; now rewrite app_nil_r, <- !app_assoc|]. apply Hsplit.
      intros id m Hin. inversion Hin.
  - exists (navs ++ posts ++ []).
    split; [cbn; now rewrite app_nil_r, <- !app_assoc|]. apply Hsplit.
    intros id m Hin. inversion Hin.
Qed.

Lemma posts_carry_new_qualifying_listings_witness :
  exists events,
    trace (processSearchHousesByChat Scenario.portal 5 "-1002" Scenario.groupB
             Scenario.start).2 = trace Scenario.start ++ events
    /\ (Post "-1002" [Scenario.casa3] ∈ events ->
        budgetFilter (maxPrice Scenario.groupB) Scenario.casa3 = true).
Proof.
  destruct (posts_carry_new_qualifying_listings Scenario.portal 5 "-1002"
              Scenario.groupB Scenario.start) as (events & Htrace & Hposts).
  exists events. split; [exact Htrace|].
  intros Hin. destruct (Hposts _ _ Hin) as (_ & _ & Hall).
  apply (Hall Scenario.casa3). apply list_elem_of_singleton. reflexivity.
Defined.

(** X15.  With a chunk size of at least 1, a group run that returns has
    posted the very list it records as seen, in the order of collection
    and with the repetitions of that list (a listing collected under two
    search links stands in it twice and is posted twice): after the
    navigation its trace holds one post per batch, the batches joined give
    the list the collection phase returned, and the store written is the
    old one with that list marked. *)
Theorem returned_run_posts_what_it_records (W : World) (fuel : nat)
    (chatId : string) (searchConfig : ChatConfig) (st : Machine) (s : Z) :
  let r := processSearchHousesByChat W fuel chatId searchConfig st in
  CHUNK_SIZE W = Int s -> 1 <= s -> r.1 = Returned tt ->
  exists found navs chunks,
    (linksLoop W (searchLinks searchConfig) searchConfig [] st).1 = Returned found
    /\ trace r.2 = trace st ++ navs ++ map (Post chatId) chunks
                   ++ [WriteFile (file r.2)]
    /\ Forall isNavigation navs
    /\ posted (trace r.2) = posted (trace st) ++ chunks
    /\ concat chunks = found
    /\ chunked (Z.to_nat s) chunks
    /\ markSeen chatId found (file st) = Some (file r.2).
Proof.
  cbv zeta. intros Hsize Hs. rewrite processSearchHousesByChat_run, linksLoop_run.
  cbv zeta.
  pose proof (linksEvents_navigation W searchConfig (searchLinks searchConfig)) as Hnav.
  set (navs := linksEvents W searchConfig (searchLinks searchConfig)) in *.
  destruct (linksResult W searchConfig (searchLinks searchConfig)) as [found|];
    [|discriminate].
  rewrite Hsize.
  destruct (chunkArray fuel found (Int s)) as [chunks|] eqn:Hchunks; [|discriminate].
  destruct (chunkArray_shape _ _ _ _ Hs Hchunks) as [Hcat Hshape].
  assert (Hne : Forall (fun c => c <> []) chunks)
    by (apply (chunked_nonempty (Z.to_nat s)); [lia | exact Hshape]).
  pose proof (dispatch_all_delivered W chatId chunks (trace (log st navs))) as Hall.
  destruct (dispatch W chatId chunks (trace (log st navs))) as [ok posts].
  cbn [fst snd] in *. destruct ok; [|discriminate].
  rewrite (Hall eq_refl Hne). rewrite updateAlreadySeenHouses_run. cbn [file log].
  destruct (markSeen chatId found (file st)) as [dataStore'|] eqn:Hmark;
    [|discriminate].
  intros _. exists found, navs, chunks. cbn [snd fst trace file app].
  assert (Hposted : forall evs, Forall isNavigation evs -> posted evs = []).
  { induction evs as [|e evs IH]; [reflexivity|].
    intros Hf. inversion Hf as [|? ? He Hrest]; subst.
    destruct e; cbn in He |- *; try contradiction; auto. }
  assert (Hposted_app : forall a b, posted (a ++ b) = posted a ++ posted b).
  { induction a as [|e a IH]; intros b; [reflexivity|].
    destruct e; cbn; rewrite ?IH; reflexivity. }
  assert (Hposted_map : forall cs, posted (map (Post chatId) cs) = cs).
  { induction cs as [|c cs IH]; cbn; [reflexivity | now rewrite IH]. }
  assert (Htrace : ((trace st ++ navs) ++ map (Post chatId) chunks)
                   ++ [WriteFile dataStore']
                   = trace st ++ navs ++ map (Post chatId) chunks
                     ++ [WriteFile dataStore'])
    by now rewrite <- !app_assoc.
  split; [reflexivity|]. split; [exact Htrace|]. split; [exact Hnav|].
  split; [|split; [exact Hcat | split; [exact Hshape | exact Hmark]]].
  change (posted (((trace st ++ navs) ++ map (Post chatId) chunks)
                  ++ [WriteFile dataStore'])
          = posted (trace st) ++ chunks).
  rewrite !Hposted_app, (Hposted navs Hnav), Hposted_map. cbn.
  now rewrite !app_nil_r.
Qed.

Lemma returned_run_posts_what_it_records_witness :
  exists chunks,
    posted (trace (processSearchHousesByChat Scenario.reliable 5 "-1002"
                     Scenario.groupB Scenario.start).2)
    = posted (trace Scenario.start) ++ chunks
    /\ concat chunks = [Scenario.casa3; Scenario.casa4; Scenario.casa5].
Proof.
  destruct (returned_run_posts_what_it_records Scenario.reliable 5 "-1002"
              Scenario.groupB Scenario.start 1)
    as (found & navs & chunks & Hfound & _ & _ & Hposted & Hcat & _).
  - reflexivity.
  - lia.
  - vm_compute. reflexivity.
  - exists chunks. split; [exact Hposted|]. rewrite Hcat.
    vm_compute in Hfound. injection Hfound as <-. reflexivity.
Defined.

(** X16.  When [CHUNK_SIZE] does not parse to a number, the batcher turns
    whatever was collected into at most one empty batch, for which nothing
    is posted; the group run then goes straight from the collection to the
    seen-set update, so the collected listings are recorded as seen
    without having been posted. *)
Theorem nan_chunk_size_posts_nothing (W : World) (fuel : nat) (chatId : string)
    (searchConfig : ChatConfig) (st st1 : Machine) (found : list HouseData) :
  CHUNK_SIZE W = NaN -> (1 <= fuel)%nat ->
  linksLoop W (searchLinks searchConfig) searchConfig [] st = (Returned found, st1) ->
  (found <> [] -> chunkArray fuel found (CHUNK_SIZE W) = Some [[]])
  /\ processSearchHousesByChat W fuel chatId searchConfig st
     = updateAlreadySeenHouses chatId found st1.
Proof.
  intros Hsize Hfuel Hlinks. destruct fuel as [|fuel]; [lia|].
  split; [intros Hne; rewrite Hsize; now apply chunkArray_nan|].
  unfold processSearchHousesByChat, bind at 1. rewrite Hlinks, Hsize.
  destruct found as [|h rest].
  - rewrite chunkArray_empty. reflexivity.
  - rewrite chunkArray_nan by discriminate. reflexivity.
Qed.

Lemma nan_chunk_size_posts_nothing_witness :
  CHUNK_SIZE Misconfigured.portal = NaN
  /\ processSearchHousesByChat Misconfigured.portal 1 "-1002" Scenario.groupB
       Scenario.start
     = updateAlreadySeenHouses "-1002"
         [Scenario.casa3; Scenario.casa4; Scenario.casa5]
         (log Scenario.start Scenario.visitsB).
Proof.
  assert (H : CHUNK_SIZE Misconfigured.portal = NaN) by reflexivity.
  split; [exact H|].
  apply (nan_chunk_size_posts_nothing Misconfigured.portal 1 "-1002"
           Scenario.groupB Scenario.start); [exact H | lia |].
  vm_compute. reflexivity.
Defined.

(** X17.  When one of the group's search pages cannot be loaded, the group
    run throws; whatever was collected from the links before it is
    dropped: the run has only navigated, nothing is posted and the file is
    left as it was. *)
Theorem failed_search_page_aborts (W : World) (fuel : nat) (chatId : string)
    (searchConfig : ChatConfig) (st : Machine) (link : string) :
  link ∈ searchLinks searchConfig -> searchPage W link = None ->
  let r := processSearchHousesByChat W fuel chatId searchConfig st in
  r.1 = Thrown
  /\ file r.2 = file st
  /\ exists navs, trace r.2 = trace st ++ navs /\ Forall isNavigation navs.
Proof.
  intros Hin Hfail. cbv zeta. rewrite processSearchHousesByChat_run. cbv zeta.
  rewrite (linksResult_failed W _ _ _ Hin Hfail). cbn [fst snd log file trace].
  split; [reflexivity|]. split; [reflexivity|].
  eexists. split; [reflexivity|]. apply linksEvents_navigation.
Qed.

Lemma failed_search_page_aborts_witness :
  (processSearchHousesByChat Scenario.portal 5 "-1002"
     {| searchLinks := ["https://portal/b"; "https://portal/z"];
        alreadySeenHouses := ∅;
        maxPrice := 900000 |} Scenario.start).1 = Thrown.
Proof.
  refine (proj1 (failed_search_page_aborts Scenario.portal 5 "-1002" _
                   Scenario.start "https://portal/z" _ _)).
  - cbn [searchLinks]. apply elem_of_cons. right. apply elem_of_cons. left. reflexivity.
  - reflexivity.
Defined.

(** ** Running again *)

Section Again.
Variable W : World.

Lemma linksResult_pages cfg links found :
  linksResult W cfg links = Some found ->
  forall link, link ∈ links -> exists cards, searchPage W link = Some cards.
Proof.
  revert found. induction links as [|l rest IH]; intros found Hres link Hin;
    [inversion Hin|].
  cbn [linksResult] in Hres.
  destruct (searchPage W l) as [cards|] eqn:Hpage; [|discriminate].
  destruct (linksResult W cfg rest) as [more|] eqn:Hrest; [|discriminate].
  apply elem_of_cons in Hin as [->|Hin]; [eauto | exact (IH _ eq_refl _ Hin)].
Qed.

(** A card that yields a listing under the larger seen-set yields the same
    listing under the smaller one. *)
Lemma cardResult_marked found seen card h :
  cardResult W (markAll found seen) card = Some h ->
  cardResult W seen card = Some h /\ seenKey h ∉ map seenKey found.
Proof.
  unfold cardResult, cardSkipped. rewrite isSeen_markAll.
  destruct (String.eqb (cardUrl card) ""); [discriminate|].
  destruct (bool_decide (cardUrl card ∈ map seenKey found)) eqn:Hk; [discriminate|].
  destruct (isSeen seen (cardUrl card)); [discriminate|]. cbn [orb].
  intros Hres. split; [exact Hres|].
  destruct (housePage W (cardUrl card)) as [page|]; [|discriminate].
  injection Hres as <-. cbn. apply bool_decide_eq_false in Hk. exact Hk.
Qed.

Lemma marked_settled_on cfg found links :
  linksResult W cfg (searchLinks cfg) = Some found ->
  (forall link, link ∈ links -> link ∈ searchLinks cfg) ->
  linksResult W (marked found cfg) links = Some [].
Proof.
  intros Hres. induction links as [|l rest IH]; intros Hsub; [reflexivity|].
  cbn [linksResult].
  destruct (linksResult_pages _ _ _ Hres l) as (cards & Hpage);
    [apply Hsub, elem_of_cons; auto|].
  rewrite Hpage, IH by (intros link Hl; apply Hsub, elem_of_cons; auto).
  cbn. f_equal. rewrite app_nil_r. apply elem_of_nil_inv. intros h Hin.
  unfold accepted in Hin. apply list_elem_of_filter in Hin as [Hb Hin].
  cbn [marked maxPrice alreadySeenHouses] in Hb, Hin.
  unfold pageExtracted in Hin. apply list_elem_of_omap in Hin as (card & Hcard & Hr).
  apply cardResult_marked in Hr as [Hr Hkey].
  apply Hkey. apply list_elem_of_fmap. exists h. split; [reflexivity|].
  apply (linksResult_elem W _ _ _ Hres). split; [|exact Hb].
  exists l, cards. split; [apply Hsub, elem_of_cons; auto|]. split; [exact Hpage|].
  unfold pageExtracted. apply list_elem_of_omap. eauto.
Qed.

Lemma marked_settled cfg found :
  linksResult W cfg (searchLinks cfg) = Some found -> settled W (marked found cfg).
Proof. intros Hres. unfold settled. apply marked_settled_on; auto. Qed.

(** A run over a settled configuration: navigation, no post, and the file
    written back as it was read. *)
Lemma settled_run fuel chatId cfg st :
  settled W cfg ->
  processSearchHousesByChat W fuel chatId cfg st
  = (Returned tt,
     log st (linksEvents W cfg (searchLinks cfg) ++ [WriteFile (file st)])).
Proof.
  intros Hs. rewrite processSearchHousesByChat_run. cbv zeta.
  unfold settled in Hs. rewrite Hs, chunkArray_empty. cbn [dispatch fst snd].
  rewrite log_nil, updateAlreadySeenHouses_run. cbn [file log].
  rewrite markSeen_nil. unfold log. cbn. now rewrite <- app_assoc.
Qed.

(** What a returning group run does to the file when the configuration it
    was given is the one the file holds. *)
Lemma returned_run_marks fuel chatId cfg st :
  (processSearchHousesByChat W fuel chatId cfg st).1 = Returned tt ->
  lookupChat chatId (file st) = Some cfg ->
  exists found,
    linksResult W cfg (searchLinks cfg) = Some found
    /\ file (processSearchHousesByChat W fuel chatId cfg st).2
       = storeChat chatId (marked found cfg) (file st).
Proof.
  rewrite processSearchHousesByChat_run. cbv zeta. intros Hret Hstored.
  destruct (linksResult W cfg (searchLinks cfg)) as [found|]; [|discriminate].
  destruct (chunkArray fuel found (CHUNK_SIZE W)) as [chunks|]; [|discriminate].
  destruct (dispatch W chatId chunks _) as [ok posts]. cbn [fst snd] in *.
  destruct ok; [|discriminate].
  rewrite updateAlreadySeenHouses_run in *. cbn [file log] in *.
  unfold markSeen in *. rewrite Hstored in *. cbn [fst snd file].
  exists found. split; reflexivity.
Qed.

End Again.

(** X18.  Running a group a second time on the same pages finds nothing
    new.  If a group run returned, and the configuration it was given is
    the one the file held, then the file now holds the same search links
    and maximum price for the group, and a run of the group with that new
    entry collects no listing, posts nothing, returns, and writes the file
    back as it read it: listings that were posted are now skipped, and
    listings that were rejected are rejected again. *)
Theorem second_group_run_is_idle (W : World) (fuel fuel' : nat) (chatId : string)
    (searchConfig : ChatConfig) (st st2 : Machine) :
  let r := processSearchHousesByChat W fuel chatId searchConfig st in
  r.1 = Returned tt ->
  lookupChat chatId (file st) = Some searchConfig ->
  exists searchConfig',
    lookupChat chatId (file r.2) = Some searchConfig'
    /\ searchLinks searchConfig' = searchLinks searchConfig
    /\ maxPrice searchConfig' = maxPrice searchConfig
    /\ (linksLoop W (searchLinks searchConfig') searchConfig' [] st2).1
       = Returned []
    /\ exists navs,
         processSearchHousesByChat W fuel' chatId searchConfig' st2
         = (Returned tt, log st2 (navs ++ [WriteFile (file st2)]))
         /\ Forall isNavigation navs.
Proof.
  cbv zeta. intros Hret Hstored.
  destruct (returned_run_marks W _ _ _ _ Hret Hstored) as (found & Hres & Hfile).
  exists (marked found searchConfig). rewrite Hfile.
  split; [apply (lookupChat_storeChat_eq _ _ _ _ Hstored)|].
  split; [reflexivity|]. split; [reflexivity|].
  pose proof (marked_settled W _ _ Hres) as Hs.
  split.
  - rewrite linksLoop_run. unfold settled in Hs. rewrite Hs. reflexivity.
  - eexists. split; [apply (settled_run W _ _ _ _ Hs)|].
    apply linksEvents_navigation.
Qed.

Lemma second_group_run_is_idle_witness :
  exists searchConfig',
    lookupChat "-1002"
      (file (processSearchHousesByChat Scenario.reliable 5 "-1002"
               Scenario.groupB Scenario.start).2) = Some searchConfig'
    /\ (linksLoop Scenario.reliable (searchLinks searchConfig') searchConfig' []
          Scenario.start).1 = Returned [].
Proof.
  destruct (second_group_run_is_idle Scenario.reliable 5 5 "-1002"
              Scenario.groupB Scenario.start Scenario.start)
    as (cfg' & Hl & _ & _ & Hidle & _).
  - vm_compute. reflexivity.
  - reflexivity.
  - exists cfg'. split; [exact Hl | exact Hidle].
Defined.

(** ** Whole runs *)

Lemma posted_app a b : posted (a ++ b) = posted a ++ posted b.
Proof.
  induction a as [|e a IH]; [reflexivity|].
  destruct e; cbn; rewrite ?IH; reflexivity.
Qed.

Lemma posted_navigation evs : Forall isNavigation evs -> posted evs = [].
Proof.
  induction evs as [|e evs IH]; [reflexivity|].
  intros Hf. inversion Hf as [|? ? He Hrest]; subst.
  destruct e; cbn in He |- *; try contradiction; auto.
Qed.

Lemma lookupChat_NoDup k c (dataStore : DataStore) :
  NoDup (map fst dataStore) -> (k, c) ∈ dataStore -> lookupChat k dataStore = Some c.
Proof.
  induction dataStore as [|[k' c'] rest IH]; intros Hnd Hin; [inversion Hin|].
  cbn [map fst] in Hnd. apply NoDup_cons in Hnd as [Hfresh Hnd].
  cbn [lookupChat]. apply elem_of_cons in Hin as [[= -> ->]|Hin].
  - now rewrite String.eqb_refl.
  - destruct (String.eqb_spec k' k) as [->|Hne]; [|auto].
    exfalso. apply Hfresh. apply list_elem_of_fmap. exists (k, c). auto.
Qed.

Lemma entryGrows_trans a b c : entryGrows a b -> entryGrows b c -> entryGrows a c.
Proof.
  intros (H1 & H2 & H3 & H4) (G1 & G2 & G3 & G4). unfold entryGrows.
  repeat split; [congruence | congruence | auto | auto].
Qed.

Lemma storeGrows_refl dataStore : storeGrows dataStore dataStore.
Proof.
  split; [reflexivity|]. intros g cfg H. exists cfg. split; [exact H|].
  apply entryGrows_refl.
Qed.

Lemma storeGrows_trans a b c : storeGrows a b -> storeGrows b c -> storeGrows a c.
Proof.
  intros [Hk1 H1] [Hk2 H2]. split; [congruence|].
  intros g cfg Hg. destruct (H1 g cfg Hg) as (cfg1 & Hl1 & Hg1).
  destruct (H2 g cfg1 Hl1) as (cfg2 & Hl2 & Hg2).
  exists cfg2. split; [exact Hl2|]. exact (entryGrows_trans _ _ _ Hg1 Hg2).
Qed.

Lemma markSeen_storeGrows chatId housesData dataStore dataStore' :
  markSeen chatId housesData dataStore = Some dataStore' ->
  storeGrows dataStore dataStore'.
Proof.
  intros Hm. destruct (markSeen_frame _ _ _ _ Hm) as [Hkeys Hall].
  split; [exact Hkeys|]. intros g cfg Hg.
  destruct (Hall g cfg Hg) as (cfg' & Hl & Hgrow & _). eauto.
Qed.

Section WholeRuns.
Variable W : World.

Lemma processSearchHousesByChat_storeGrows fuel chatId cfg st :
  storeGrows (file st) (file (processSearchHousesByChat W fuel chatId cfg st).2).
Proof.
  rewrite processSearchHousesByChat_run. cbv zeta.
  destruct (linksResult W cfg (searchLinks cfg)) as [found|];
    [|apply storeGrows_refl].
  destruct (chunkArray fuel found (CHUNK_SIZE W)) as [chunks|];
    [|apply storeGrows_refl].
  destruct (dispatch W chatId chunks _) as [ok posts]. cbn [fst snd].
  destruct ok; [|apply storeGrows_refl].
  rewrite updateAlreadySeenHouses_run. cbn [file log].
  destruct (markSeen chatId found (file st)) as [dataStore'|] eqn:Hm;
    [|apply storeGrows_refl].
  cbn [snd file]. exact (markSeen_storeGrows _ _ _ _ Hm).
Qed.

Lemma processGroups_storeGrows fuel groups st :
  storeGrows (file st) (file (processGroups W fuel groups st).2).
Proof.
  revert st. induction groups as [|[k c] rest IH]; intros st;
    [apply storeGrows_refl|].
  unfold processGroups. cbn [forEach fst snd]. unfold bind.
  pose proof (processSearchHousesByChat_storeGrows fuel k c st) as Hstep.
  destruct (processSearchHousesByChat W fuel k c st) as [[[]| |] st1];
    cbn [snd] in *; try exact Hstep.
  eapply storeGrows_trans; [exact Hstep | apply IH].
Qed.

Lemma processGroups_settles fuel groups st st' :
  processGroups W fuel groups st = (Returned tt, st') ->
  NoDup (map fst groups) ->
  (forall k c, (k, c) ∈ groups -> lookupChat k (file st) = Some c) ->
  (forall k, k ∉ map fst groups -> lookupChat k (file st') = lookupChat k (file st))
  /\ (forall k c', k ∈ map fst groups -> lookupChat k (file st') = Some c' ->
                   settled W c').
Proof.
  revert st. induction groups as [|[k c] rest IH]; intros st Hrun Hnd Hheld.
  - injection Hrun as <-. split; [reflexivity|]. intros k c' Hin. inversion Hin.
  - unfold processGroups in Hrun. cbn [forEach fst snd] in Hrun. unfold bind in Hrun.
    destruct (processSearchHousesByChat W fuel k c st) as [[[]| |] st1] eqn:Hstep;
      try discriminate Hrun.
    cbn [map fst] in Hnd. apply NoDup_cons in Hnd as [Hfresh Hnd].
    assert (Hret : (processSearchHousesByChat W fuel k c st).1 = Returned tt)
      by (rewrite Hstep; reflexivity).
    destruct (returned_run_marks W _ _ _ _ Hret (Hheld k c ltac:(apply elem_of_cons; auto)))
      as (found & Hres & Hfile).
    rewrite Hstep in Hfile. cbn [snd] in Hfile.
    destruct (IH st1 Hrun Hnd) as [Hout Hin].
    { intros k' c' Hk'. rewrite Hfile, lookupChat_storeChat_ne.
      - apply Hheld. apply elem_of_cons. auto.
      - intros ->. apply Hfresh. apply list_elem_of_fmap. exists (k, c'). auto. }
    assert (Hk : lookupChat k (file st') = Some (marked found c)).
    { rewrite (Hout k Hfresh), Hfile.
      apply (lookupChat_storeChat_eq _ c).
      apply Hheld. apply elem_of_cons. auto. }
    split.
    + intros k' Hk'. cbn [map fst] in Hk'. rewrite not_elem_of_cons in Hk'.
      destruct Hk' as [Hne Hk']. rewrite (Hout k' Hk'), Hfile.
      now apply lookupChat_storeChat_ne.
    + intros k' c' Hk' Hl. cbn [map fst] in Hk'.
      destruct (decide (k' ∈ map fst rest)) as [Hrest|Hrest]; [exact (Hin _ _ Hrest Hl)|].
      apply elem_of_cons in Hk' as [->|Hk']; [|contradiction].
      rewrite Hk in Hl. injection Hl as <-. apply marked_settled, Hres.
Qed.

Lemma processGroups_settled_run fuel groups st :
  Forall (fun g => settled W g.2) groups ->
  exists st',
    processGroups W fuel groups st = (Returned tt, st')
    /\ file st' = file st
    /\ posted (trace st') = posted (trace st).
Proof.
  revert st. induction groups as [|[k c] rest IH]; intros st Hall.
  - exists st. auto.
  - inversion Hall as [|? ? Hc Hrest]; subst. cbn [snd] in Hc.
    unfold processGroups. cbn [forEach fst snd]. unfold bind.
    rewrite (settled_run W fuel k c st Hc).
    destruct (IH (log st (linksEvents W c (searchLinks c) ++ [WriteFile (file st)])) Hrest)
      as (st' & Hrun & Hfile & Hposted).
    exists st'. split; [exact Hrun|]. split; [exact Hfile|].
    rewrite Hposted. cbn [log trace]. rewrite !posted_app.
    rewrite (posted_navigation _ (linksEvents_navigation W c (searchLinks c))).
    cbn. now rewrite app_nil_r.
Qed.

End WholeRuns.

(** X19.  Over every run of [main], whether it returns, throws or spins
    in the batcher, the file only grows: the groups and their order stay,
    as do the search links and the maximum price of each group, and a URL
    that counted as seen for a group still does afterwards. *)
Theorem main_only_grows_the_store (W : World) (fuel : nat) (st : Machine) :
  map fst (file (main W fuel st).2) = map fst (file st)
  /\ forall g cfg, lookupChat g (file st) = Some cfg ->
       exists cfg',
         lookupChat g (file (main W fuel st).2) = Some cfg'
         /\ searchLinks cfg' = searchLinks cfg
         /\ maxPrice cfg' = maxPrice cfg
         /\ forall u, isSeen (alreadySeenHouses cfg) u = true ->
                      isSeen (alreadySeenHouses cfg') u = true.
Proof.
  unfold main, bind, readDataStore.
  destruct (processGroups_storeGrows W fuel (file st) st) as [Hkeys Hall].
  split; [exact Hkeys|]. intros g cfg Hg.
  destruct (Hall g cfg Hg) as (cfg' & Hl & H1 & H2 & _ & H4).
  exists cfg'. auto.
Qed.

Lemma main_only_grows_the_store_witness :
  exists cfg',
    lookupChat "-1001" (file (main Scenario.portal 5 Scenario.start).2) = Some cfg'
    /\ isSeen (alreadySeenHouses cfg') "https://casa/0" = true.
Proof.
  destruct (proj2 (main_only_grows_the_store Scenario.portal 5 Scenario.start)
                  "-1001" Scenario.groupA eq_refl)
    as (cfg' & Hl & _ & _ & Hseen).
  exists cfg'. split; [exact Hl|]. apply Hseen. reflexivity.
Defined.

(** X20.  Running [main] again after a run that returned, against the same
    pages, changes nothing and notifies nobody: provided the groups of the
    file have distinct identifiers, the second run returns, leaves the
    file as the first run left it, and makes no post, whatever the
    transport and the fuel. *)
Theorem second_main_run_is_idle (W : World) (fuel fuel' : nat) (st : Machine) :
  NoDup (map fst (file st)) ->
  (main W fuel st).1 = Returned tt ->
  let st1 := (main W fuel st).2 in
  (main W fuel' st1).1 = Returned tt
  /\ file (main W fuel' st1).2 = file st1
  /\ posted (trace (main W fuel' st1).2) = posted (trace st1).
Proof.
  intros Hnd Hret. cbv zeta.
  unfold main, bind, readDataStore in *.
  destruct (processGroups W fuel (file st) st) as [o st1] eqn:Hfirst.
  cbn [fst snd] in *. subst o.
  destruct (processGroups_settles W _ _ _ _ Hfirst Hnd) as [_ Hsettled].
  { intros k c Hin. now apply lookupChat_NoDup. }
  pose proof (processGroups_storeGrows W fuel (file st) st) as [Hkeys _].
  rewrite Hfirst in Hkeys. cbn [snd] in Hkeys.
  assert (Hall : Forall (fun g => settled W g.2) (file st1)).
  { apply Forall_forall. intros [k c'] Hin. cbn [snd].
    apply (Hsettled k c').
    - rewrite <- Hkeys. apply list_elem_of_fmap. exists (k, c'). auto.
    - apply lookupChat_NoDup; [rewrite Hkeys; exact Hnd | exact Hin]. }
  destruct (processGroups_settled_run W fuel' (file st1) st1 Hall)
    as (st2 & Hrun & Hfile & Hposted).
  rewrite Hrun. cbn [fst snd]. auto.
Qed.

Lemma second_main_run_is_idle_witness :
  let st1 := (main Scenario.reliable 5 Scenario.start).2 in
  file (main Scenario.reliable 3 st1).2 = file st1
  /\ posted (trace (main Scenario.reliable 3 st1).2) = posted (trace st1).
Proof.
  refine (proj2 (second_main_run_is_idle Scenario.reliable 5 3 Scenario.start _ _)).
  - apply (bool_decide_unpack _). vm_compute. exact I.
  - vm_compute. reflexivity.
Defined.

Lemma group_run_shape_file (W : World) fuel chatId cfg st :
  (processSearchHousesByChat W fuel chatId cfg st).1 = Returned tt
  \/ file (processSearchHousesByChat W fuel chatId cfg st).2 = file st.
Proof.
  rewrite processSearchHousesByChat_run. cbv zeta.
  destruct (linksResult W cfg (searchLinks cfg)) as [found|]; [|auto].
  destruct (chunkArray fuel found (CHUNK_SIZE W)) as [chunks|]; [|auto].
  destruct (dispatch W chatId chunks _) as [ok posts]. cbn [fst snd].
  destruct ok; [|auto].
  rewrite updateAlreadySeenHouses_run. cbn [file log].
  destruct (markSeen chatId found (file st)); auto.
Qed.

(** X21.  A group run that does not return ends the whole run: when the
    groups before it have been processed to the end and its own run throws
    or does not finish, [main] ends the same way in the state that group
    run left, whatever groups come later; in particular the file is the
    one the earlier groups left. *)
Theorem main_stops_at_first_failure (W : World) (fuel : nat)
    (earlier later : DataStore) (chatId : string) (searchConfig : ChatConfig)
    (st0 st st' : Machine) (o : Outcome unit) :
  file st0 = earlier ++ (chatId, searchConfig) :: later ->
  processGroups W fuel earlier st0 = (Returned tt, st) ->
  processSearchHousesByChat W fuel chatId searchConfig st = (o, st') ->
  o <> Returned tt ->
  main W fuel st0 = (o, st') /\ file st' = file st.
Proof.
  intros Hfile Hearlier Hrun Hfail. split.
  - unfold main, bind, readDataStore, processGroups. rewrite Hfile, forEach_app.
    fold (processGroups W fuel earlier st0). rewrite Hearlier.
    cbn [forEach fst snd]. unfold bind. rewrite Hrun.
    destruct o as [[]| |]; [congruence | reflexivity | reflexivity].
  - destruct (group_run_shape_file W fuel chatId searchConfig st) as [Hret|Hsame].
    + rewrite Hrun in Hret. cbn in Hret. congruence.
    + rewrite Hrun in Hsame. exact Hsame.
Qed.

Lemma main_stops_at_first_failure_witness :
  main Misconfigured.zero 5 Misconfigured.startB
  = (Diverged, log Misconfigured.startB Scenario.visitsB).
Proof.
  refine (proj1 (main_stops_at_first_failure Misconfigured.zero 5 []
                   [("-1001", Scenario.groupA)] "-1002" Scenario.groupB
                   Misconfigured.startB Misconfigured.startB
                   (log Misconfigured.startB Scenario.visitsB)
                   Diverged eq_refl eq_refl _ _)).
  - vm_compute. reflexivity.
  - discriminate.
Defined.

(** X22.  A card without anchor, with an empty [href], or with an [href]
    that is only a fragment has no URL to look up: [retrieveHouseCardInfo]
    returns [null] for it and the trace is untouched, so no page is
    opened. *)
Theorem card_without_url_is_skipped (W : World) (houseCard : Card)
    (seen : gmap string bool) (st : Machine) :
  (houseCard = None \/ houseCard = Some ""
   \/ exists f, houseCard = Some (String "#" f)) ->
  retrieveHouseCardInfo W houseCard seen st = (Returned None, st).
Proof.
  intros Hcard. rewrite retrieveHouseCardInfo_run.
  assert (Hu : cardUrl houseCard = "")
    by (destruct Hcard as [->|[->|(f & ->)]]; reflexivity).
  unfold cardResult, cardEvents, cardSkipped. rewrite Hu. cbn.
  now rewrite log_nil.
Qed.

Lemma card_without_url_is_skipped_witness :
  retrieveHouseCardInfo Scenario.portal (Some "#fotos") ∅ Scenario.start
  = (Returned None, Scenario.start).
Proof.
  apply (card_without_url_is_skipped Scenario.portal (Some "#fotos") ∅ Scenario.start).
  right. right. exists "fotos". reflexivity.
Defined.

Lemma linksResult_concat (W : World) cfg links pages :
  Forall2 (fun link cards => searchPage W link = Some cards) links pages ->
  linksResult W cfg links
  = Some (concat (map (fun cards =>
                         accepted cfg (pageExtracted W (alreadySeenHouses cfg) cards))
                      pages)).
Proof.
  induction 1 as [|link cards links pages Hpage _ IH]; [reflexivity|].
  cbn [linksResult map concat]. rewrite Hpage, IH. reflexivity.
Qed.

(** X23.  When every search page of the group loads, the collection phase
    returns the listings link by link in the order of the search links,
    and within a link in the order of the cards on the page: for each page
    the extracted listings that pass the budget filter, appended to what
    had been collected before. *)
Theorem collection_order (W : World) (searchConfig : ChatConfig)
    (links : list string) (pages : list (list Card))
    (collected : list HouseData) (st : Machine) :
  Forall2 (fun link cards => searchPage W link = Some cards) links pages ->
  (linksLoop W links searchConfig collected st).1
  = Returned
      (collected
       ++ concat (map (fun cards =>
                         filter (fun house =>
                                   budgetFilter (maxPrice searchConfig) house = true)
                                (omap (cardResult W (alreadySeenHouses searchConfig))
                                      cards))
                      pages)).
Proof.
  intros Hpages. rewrite linksLoop_run, (linksResult_concat W _ _ _ Hpages).
  reflexivity.
Qed.

Lemma collection_order_witness :
  (linksLoop Scenario.portal ["https://portal/b"] Scenario.groupB []
     Scenario.start).1
  = Returned [Scenario.casa3; Scenario.casa4; Scenario.casa5].
Proof.
  refine (collection_order Scenario.portal Scenario.groupB ["https://portal/b"]
            [[Some "https://casa/3"; Some "https://casa/4"; None;
              Some "https://casa/5"]] [] Scenario.start _).
  repeat constructor.
Defined.

(** X24.  Raising a group's maximum price never turns an accepted listing
    into a rejected one: a listing that passes the filter passes it for
    every larger threshold, and a listing with a rent or a fee that reads
    as [NaN] passes it for none. *)
Theorem budgetFilter_monotone (house : HouseData) (maxTotal maxTotal' : Z) :
  (budgetFilter maxTotal house = true -> maxTotal <= maxTotal' ->
   budgetFilter maxTotal' house = true)
  /\ (rentOperand house = NaN \/ feeOperand house = NaN ->
      budgetFilter maxTotal house = false).
Proof.
  rewrite !budgetFilter_operands.
  destruct (rentOperand house) as [|r], (feeOperand house) as [|m]; cbn;
    (split; [try discriminate | try reflexivity]).
  - intros H Hle. apply Z.ltb_lt in H. apply Z.ltb_lt. lia.
  - intros [H|H]; discriminate H.
Qed.

Lemma budgetFilter_monotone_witness :
  budgetFilter 500000 Scenario.casa4 = true /\ 500000 <= 900000
  /\ budgetFilter 900000 Scenario.casa4 = true.
Proof.
  assert (H : budgetFilter 500000 Scenario.casa4 = true) by reflexivity.
  assert (Hle : 500000 <= 900000) by lia.
  split; [exact H|]. split; [exact Hle|].
  exact (proj1 (budgetFilter_monotone Scenario.casa4 500000 900000) H Hle).
Defined.
